(** * StockDSL generated strategy: portfolio accounting and rotation loop

    A shallow embedding of [generated_strategy.py]: the [Portfolio] class
    ([buy], [sell]), the per-bar body of [Nvda_amd_rotation.execute] and the
    report of [Backtest.run]; then [crossover], [Backtest._fetch_data],
    [Backtest.__init__] and the main block.  The price provider and the
    indicator library are outside the file: what they return is an input.

    Numbers.  Cash amounts and prices are exact rationals ([Qc], whose
    equality is Leibniz equality), share quantities are Python ints ([Z]).
    This is the program's arithmetic on ints; on floats it leaves rounding
    out, so what is stated about the value of the cash is an inequality, or
    is stated for integer amounts.  Indicator values are floats as far as
    the decision rule can see them: NaN, the two infinities, or a finite
    number.

    Effects.  The methods mutate the one [Portfolio] object and write to
    standard output; [sell] can raise [KeyError].  All of it is threaded
    through a small state-and-exception monad [M]; an exception carries the
    store as it was when it was raised, since Python does not roll back. *)

From Stdlib Require Import Ascii String QArith Qabs Qcanon Lqa.
From stdpp Require Import gmap strings list fin_maps pretty numbers.

Local Open Scope Qc_scope.

(** ** Formatting *)

(** The newline character, for the report lines that embed one. *)
Definition nl : string := String "010"%char "".

(** Nearest integer to a rational, ties to the even neighbour. *)
Definition round_half_even (q : Q) : Z :=
  let n := Qnum q in
  let d := Z.pos (Qden q) in
  let fl := (n / d)%Z in
  let r := (n mod d)%Z in
  if (2 * r <? d)%Z then fl
  else if (d <? 2 * r)%Z then (fl + 1)%Z
  else if Z.even fl then fl else (fl + 1)%Z.

Definition digit (d : Z) : ascii := pretty_N_char (Z.to_N d).

Definition two_digits (r : Z) : string :=
  String (digit (r / 10)) (String (digit (r mod 10)) "").

(** [f"{x:.2f}"]: sign, integer part, a point and exactly two decimals. *)
Definition fmt_2f (x : Qc) : string :=
  let cents := round_half_even (Qabs (this x) * 100)%Q in
  (if bool_decide (x < 0) then "-" else "")
    +:+ pretty (cents / 100)%Z +:+ "." +:+ two_digits (cents mod 100).

(** [f"{n}"] for an int. *)
Definition str_int (n : Z) : string := pretty n.

(** ** The store *)

Record Portfolio := mkPortfolio {
  capital : Qc;
  positions : gmap string Z;
  history : list string
}.

(** [Portfolio.__init__] *)
Definition Portfolio_init (capital : Qc) : Portfolio :=
  {| capital := capital; positions := ∅; history := [] |}.

(** One [print] call.  The last line of the report prints the positions
    dict itself, kept here as the dict rather than as its [repr]. *)
Inductive line :=
  | Txt (s : string)
  | PositionsLine (d : gmap string Z).

Record World := mkWorld {
  pf : Portfolio;
  stdout : list line
}.

Definition fresh (capital : Qc) : World :=
  {| pf := Portfolio_init capital; stdout := [] |}.

Inductive exn :=
  | KeyError (key : string)
  | IndexError
  | ValueError.

Inductive result (A : Type) :=
  | Ok (a : A) (w : World)
  | Raise (e : exn) (w : World).
Arguments Ok {A} a w.
Arguments Raise {A} e w.

Definition M (A : Type) : Type := World → result A.

Global Instance M_ret : MRet M := λ A a w, Ok a w.

Global Instance M_bind : MBind M := λ A B f m w,
  match m w with
  | Ok a w' => f a w'
  | Raise e w' => Raise e w'
  end.

(** The store after a computation, whether it returned or raised. *)
Definition world_of {A} (r : result A) : World :=
  match r with Ok _ w => w | Raise _ w => w end.

(** *** Attribute and dict accesses *)

Definition get_capital : M Qc := λ w, Ok (capital (pf w)) w.

Definition set_capital (c : Qc) : M unit := λ w,
  Ok tt {| pf := {| capital := c;
                    positions := positions (pf w);
                    history := history (pf w) |};
           stdout := stdout w |}.

(** [self.positions.get(k, dflt)] *)
Definition positions_get (k : string) (dflt : Z) : M Z := λ w,
  Ok (default dflt (positions (pf w) !! k)) w.

(** [self.positions[k]] read: raises [KeyError] on an absent key. *)
Definition positions_getitem (k : string) : M Z := λ w,
  match positions (pf w) !! k with
  | Some v => Ok v w
  | None => Raise (KeyError k) w
  end.

(** [self.positions[k] = v] *)
Definition positions_setitem (k : string) (v : Z) : M unit := λ w,
  Ok tt {| pf := {| capital := capital (pf w);
                    positions := <[k := v]> (positions (pf w));
                    history := history (pf w) |};
           stdout := stdout w |}.

(** [del self.positions[k]]: raises [KeyError] on an absent key. *)
Definition positions_delitem (k : string) : M unit := λ w,
  match positions (pf w) !! k with
  | Some _ =>
      Ok tt {| pf := {| capital := capital (pf w);
                        positions := delete k (positions (pf w));
                        history := history (pf w) |};
               stdout := stdout w |}
  | None => Raise (KeyError k) w
  end.

Definition get_positions : M (gmap string Z) := λ w, Ok (positions (pf w)) w.

Definition get_history : M (list string) := λ w, Ok (history (pf w)) w.

(** [self.history.append(s)] *)
Definition history_append (s : string) : M unit := λ w,
  Ok tt {| pf := {| capital := capital (pf w);
                    positions := positions (pf w);
                    history := history (pf w) ++ [s] |};
           stdout := stdout w |}.

Definition emit (l : line) : M unit := λ w,
  Ok tt {| pf := pf w; stdout := stdout w ++ [l] |}.

Definition print (s : string) : M unit := emit (Txt s).

(** ** Portfolio *)

Definition bought_entry (symbol : string) (price : Qc) (quantity : Z) : string :=
  "BOUGHT " +:+ str_int quantity +:+ " " +:+ symbol +:+ " @ " +:+ fmt_2f price.

Definition sold_entry (symbol : string) (price : Qc) (quantity : Z) : string :=
  "SOLD   " +:+ str_int quantity +:+ " " +:+ symbol +:+ " @ " +:+ fmt_2f price.

(** [Portfolio.buy] *)
Definition buy (symbol : string) (price : Qc) (quantity : Z) : M unit :=
  let cost := price * Qc_of_Z quantity in
  cap ← get_capital;
  if bool_decide (cost ≤ cap) then
    set_capital (cap - cost);;
    old ← positions_get symbol 0;
    positions_setitem symbol (old + quantity);;
    history_append (bought_entry symbol price quantity)
  else
    print ("Insufficient capital to buy " +:+ symbol).

(** [Portfolio.sell] *)
Definition sell (symbol : string) (price : Qc) (quantity : Z) : M unit :=
  owned ← positions_get symbol 0;
  if bool_decide (quantity ≤ owned)%Z then
    cap ← get_capital;
    set_capital (cap + price * Qc_of_Z quantity);;
    cur ← positions_getitem symbol;
    positions_setitem symbol (cur - quantity);;
    history_append (sold_entry symbol price quantity);;
    rest ← positions_getitem symbol;
    if bool_decide (rest = 0%Z) then positions_delitem symbol else mret tt
  else
    print ("Not enough shares to sell " +:+ symbol).

(** *** Sequences of calls made by a client of the class *)

Inductive Call :=
  | Buy (symbol : string) (price : Qc) (quantity : Z)
  | Sell (symbol : string) (price : Qc) (quantity : Z).

Definition do_call (c : Call) : M unit :=
  match c with
  | Buy s p q => buy s p q
  | Sell s p q => sell s p q
  end.

Fixpoint do_calls (cs : list Call) : M unit :=
  match cs with
  | [] => mret tt
  | c :: cs' => do_call c;; do_calls cs'
  end.

(** The documented preconditions of [buy] and [sell]. *)
Definition call_pre (c : Call) : Prop :=
  match c with
  | Buy _ p q | Sell _ p q => 0 ≤ p ∧ (1 ≤ q)%Z
  end.

(** The number of shares of [symbol] held: [positions.get(symbol, 0)]. *)
Definition held (w : World) (symbol : string) : Z :=
  default 0%Z (positions (pf w) !! symbol).

(** ** Strategy *)

(** A float as the comparisons of the decision rule see it. *)
Inductive fval :=
  | NaN
  | PosInf
  | NegInf
  | Fin (x : Qc).

(** [a > b] on floats: false as soon as one side is NaN. *)
Definition fgt (a b : fval) : bool :=
  match a, b with
  | NaN, _ | _, NaN => false
  | PosInf, PosInf => false
  | PosInf, _ => true
  | _, PosInf => false
  | NegInf, _ => false
  | Fin _, NegInf => true
  | Fin x, Fin y => bool_decide (y < x)
  end.

(** One row of a price frame; the other columns are never read. *)
Record Bar := mkBar {
  close : Qc;
  volume : Z
}.

(** The indicator library: from the close series and a window length to a
    series aligned with the frame, read at an index. *)
Record Indicators := mkIndicators {
  ta_rsi : list Qc → nat → nat → fval;
  ta_sma : list Qc → nat → nat → fval;
  ta_zscore : list Qc → nat → nat → fval;
  (** Whether, for this close series and window length, the library hands
      back a series that the frame takes as a column.  It need not: on a
      frame shorter than the window it returns no series. *)
  ta_rsi_fits : list Qc → nat → bool;
  ta_sma_fits : list Qc → nat → bool;
  ta_zscore_fits : list Qc → nat → bool
}.

(** [df[name] = ...]: the frame takes a series aligned with it as a new
    column; with anything else the assignment raises [ValueError]. *)
Definition assign_column (fits : bool) : M unit := λ w,
  if fits then Ok tt w else Raise ValueError w.

(** A [for] loop over a list. *)
Fixpoint for_each {A} (xs : list A) (body : A → M unit) : M unit :=
  match xs with
  | [] => mret tt
  | x :: xs' => body x;; for_each xs' body
  end.

(** [.iloc[i]] on a frame *)
Definition iloc (df : list Bar) (i : nat) : M Bar := λ w,
  match df !! i with
  | Some b => Ok b w
  | None => Raise IndexError w
  end.

(** The condition of both [if] statements of the loop body. *)
Definition rotation_cond (rsi sma50 sma200 zscore : fval) : bool :=
  (fgt rsi rsi && fgt sma50 sma200) || fgt zscore (Fin 1).

(** The two [if] statements, on the values read at the current bar.
    [buy] and [sell] are called with their default quantity, 1. *)
Definition bar_body (price : Qc) (volume : Z)
    (rsi sma50 sma200 zscore : fval) : M unit :=
  (if rotation_cond rsi sma50 sma200 zscore then
     buy "NVDA" price 1;;
     sell "AMD" price 1
   else mret tt);;
  (if rotation_cond rsi sma50 sma200 zscore then
     buy "AMD" price 1;;
     sell "NVDA" price 1
   else mret tt).

Section Strategy.
Variable ta : Indicators.

(** One iteration of [for i in range(1, len(df))]. *)
Definition bar_at (df : list Bar) (i : nat) : M unit :=
  row ← iloc df i;
  let closes := close <$> df in
  bar_body (close row) (volume row)
    (ta_rsi ta closes 14 i) (ta_sma ta closes 50 i)
    (ta_sma ta closes 200 i) (ta_zscore ta closes 20 i).

(** [Nvda_amd_rotation.execute]; [data] is the dict of frames in
    iteration order, [None] standing for a missing frame. *)
Definition execute (data : list (string * option (list Bar))) : M unit :=
  for_each data (λ '(symbol, df),
    match df with
    | None | Some [] => print ("Skipping " +:+ symbol +:+ " due to no data.")
    | Some rows =>
        let closes := close <$> rows in
        assign_column (ta_rsi_fits ta closes 14);;
        assign_column (ta_sma_fits ta closes 50);;
        assign_column (ta_sma_fits ta closes 200);;
        assign_column (ta_zscore_fits ta closes 20);;
        for_each (seq 1 (length rows - 1)) (bar_at rows)
    end).

(** [Backtest.run] *)
Definition run (data : list (string * option (list Bar))) : M unit :=
  print "--- Starting Backtest ---";;
  c ← get_capital;
  print ("Initial Capital: $" +:+ fmt_2f c +:+ nl);;
  execute data;;
  print (nl +:+ "--- Backtest Finished ---");;
  print "Trade History:";;
  h ← get_history;
  (match h with
   | [] => print "No trades were executed."
   | _ => for_each h print
   end);;
  print (nl +:+ "Final Portfolio:");;
  c' ← get_capital;
  print ("Capital: $" +:+ fmt_2f c');;
  ps ← get_positions;
  emit (PositionsLine ps).
End Strategy.

(** The four calls of one firing bar, in program order. *)
Definition rotation_calls (price : Qc) : list Call :=
  [Buy "NVDA" price 1; Sell "AMD" price 1; Buy "AMD" price 1; Sell "NVDA" price 1].

(** ** Predicates on the store *)

(** Every symbol in the dict is held at least once. *)
Definition positions_ok (w : World) : Prop :=
  ∀ symbol v, positions (pf w) !! symbol = Some v → (1 ≤ v)%Z.

(** A call that takes the rejecting branch of its guard. *)
Definition rejected (w : World) (c : Call) : Prop :=
  match c with
  | Buy _ p q => capital (pf w) < p * Qc_of_Z q
  | Sell s _ q => (held w s < q)%Z
  end.

(** ** The report and the ledger text *)

(** The lines [Backtest.run] prints under the heading "Trade History:". *)
Definition trade_lines (h : list string) : list line :=
  match h with
  | [] => [Txt "No trades were executed."]
  | _ => Txt <$> h
  end.

Definition is_digit (c : ascii) : bool :=
  bool_decide (48 ≤ nat_of_ascii c ≤ 57)%nat.

(** The entry form as the specification words it: the line opens with the
    action, which is BUY or SELL. *)
Definition spec_entry_form (e : string) : Prop :=
  ∃ rest, e = "BUY " +:+ rest ∨ e = "SELL " +:+ rest.

(** ** Sample inputs *)

(** The state reached by [Portfolio(100).buy("X", 100, 1)]: no cash left,
    one share of X. *)
Definition spent_on_x : World :=
  world_of (buy "X" (Qc_of_Z 100) 1 (fresh (Qc_of_Z 100))).

(** Two bars closing at 10. *)
Definition two_bars : list Bar :=
  [ {| close := Qc_of_Z 10; volume := 1000 |};
    {| close := Qc_of_Z 10; volume := 1200 |} ].

(** Indicators during the warm-up of RSI and of both averages, with a
    z-score of 2 already available. *)
Definition warmup_indicators : Indicators :=
  {| ta_rsi := λ _ _ _, NaN;
     ta_sma := λ _ _ _, NaN;
     ta_zscore := λ _ _ _, Fin (Qc_of_Z 2);
     ta_rsi_fits := λ _ _, true;
     ta_sma_fits := λ _ _, true;
     ta_zscore_fits := λ _ _, true |}.

(** Indicators whose z-score is still undefined, the others being set. *)
Definition no_zscore_indicators : Indicators :=
  {| ta_rsi := λ _ _ _, Fin (Qc_of_Z 70);
     ta_sma := λ _ n _, Fin (Qc_of_Z (Z.of_nat n));
     ta_zscore := λ _ _ _, NaN;
     ta_rsi_fits := λ _ _, true;
     ta_sma_fits := λ _ _, true;
     ta_zscore_fits := λ _ _, true |}.

(** Indicators of a library that returns no series when the frame is
    shorter than the window. *)
Definition windowed_indicators : Indicators :=
  {| ta_rsi := λ _ _ _, NaN;
     ta_sma := λ _ _ _, NaN;
     ta_zscore := λ _ _ _, Fin (Qc_of_Z 2);
     ta_rsi_fits := λ closes n, bool_decide (n ≤ length closes)%nat;
     ta_sma_fits := λ closes n, bool_decide (n ≤ length closes)%nat;
     ta_zscore_fits := λ closes n, bool_decide (n ≤ length closes)%nat |}.

(** The four indicator columns can be assigned on every frame that has
    bars. *)
Definition indicators_fit (ta : Indicators)
    (data : list (string * option (list Bar))) : Prop :=
  ∀ symbol rows, (symbol, Some rows) ∈ data → rows ≠ [] →
    ta_rsi_fits ta (close <$> rows) 14 = true ∧
    ta_sma_fits ta (close <$> rows) 50 = true ∧
    ta_sma_fits ta (close <$> rows) 200 = true ∧
    ta_zscore_fits ta (close <$> rows) 20 = true.

(** ** Calls, seen from outside *)

Definition call_symbol (c : Call) : string :=
  match c with Buy s _ _ | Sell s _ _ => s end.

Definition call_price (c : Call) : Qc :=
  match c with Buy _ p _ | Sell _ p _ => p end.





(** The guard of the call, evaluated in the state [w]: the test of the
    [if] in [buy], respectively in [sell]. *)
Definition accepts (w : World) (c : Call) : bool :=
  match c with
  | Buy _ p q => bool_decide (p * Qc_of_Z q ≤ capital (pf w))
  | Sell s _ q => bool_decide (q ≤ held w s)%Z
  end.

(** How many calls of a sequence pass their guard, each judged in the
    state the calls before it left. *)
Fixpoint accepted_count (cs : list Call) (w : World) : nat :=
  match cs with
  | [] => 0
  | c :: cs' =>
      ((if accepts w c then 1 else 0)
       + accepted_count cs' (world_of (do_call c w)))%nat
  end.

(** ** crossover *)

(** [a <= b] on floats: false as soon as one side is NaN. *)
Definition fle (a b : fval) : bool :=
  match a, b with
  | NaN, _ | _, NaN => false
  | NegInf, _ => true
  | _, PosInf => true
  | PosInf, _ => false
  | _, NegInf => false
  | Fin x, Fin y => bool_decide (x ≤ y)
  end.

(** [.iloc[i]] on a series, for a Python int [i]: a negative index counts
    from the end, an index outside [-len, len) raises [IndexError]. *)
Definition series_iloc (series : list fval) (i : Z) : M fval := λ w,
  let n := Z.of_nat (length series) in
  let j := if (i <? 0)%Z then (n + i)%Z else i in
  if ((0 <=? j) && (j <? n))%Z then
    match series !! Z.to_nat j with
    | Some x => Ok x w
    | None => Raise IndexError w
    end
  else Raise IndexError w.

(** [Nvda_amd_rotation.crossover].  The operands of [and] are evaluated
    left to right, the right one only when the left one is true. *)
Definition crossover (series1 series2 : list fval) (i : Z) : M bool :=
  if bool_decide (i = 0%Z) then mret false
  else
    a ← series_iloc series1 i;
    b ← series_iloc series2 i;
    if fgt a b then
      c ← series_iloc series1 (i - 1);
      d ← series_iloc series2 (i - 1);
      mret (fle c d)
    else mret false.

(** An index that [.iloc] accepts on a series of this length. *)
Definition in_bounds (series : list fval) (i : Z) : Prop :=
  (- Z.of_nat (length series) ≤ i < Z.of_nat (length series))%Z.

(** ** What the loop prints and what it can end up holding *)

(** The diagnostics of [execute] for the symbols whose frame is missing or
    empty, in iteration order. *)
Definition skip_lines (data : list (string * option (list Bar))) : list line :=
  flat_map (λ '(symbol, df),
    match df with
    | None | Some [] => [Txt ("Skipping " +:+ symbol +:+ " due to no data.")]
    | Some _ => []
    end) data.

(** Holding nothing, or exactly one share of AMD. *)
Definition flat_or_one_amd (w : World) : Prop :=
  positions (pf w) = ∅ ∨ positions (pf w) = {[ "AMD" := 1%Z ]}.

(** Every close of every frame is non-negative. *)
Definition closes_nonneg (data : list (string * option (list Bar))) : Prop :=
  ∀ symbol rows row, (symbol, Some rows) ∈ data → row ∈ rows → 0 ≤ close row.

(** The work of [execute] on one frame that has bars: the four column
    assignments, then the bars. *)
Definition on_frame (ta : Indicators) (rows : list Bar) : M unit :=
  assign_column (ta_rsi_fits ta (close <$> rows) 14);;
  assign_column (ta_sma_fits ta (close <$> rows) 50);;
  assign_column (ta_sma_fits ta (close <$> rows) 200);;
  assign_column (ta_zscore_fits ta (close <$> rows) 20);;
  for_each (seq 1 (length rows - 1)) (bar_at ta rows).

(** No frame has a bar: each is missing or empty. *)
Definition no_bars (data : list (string * option (list Bar))) : Prop :=
  ∀ symbol rows, (symbol, Some rows) ∈ data → rows = [].

(** One of the four indicator columns cannot be assigned on this frame. *)
Definition some_column_misfits (ta : Indicators) (rows : list Bar) : Prop :=
  ta_rsi_fits ta (close <$> rows) 14 = false ∨
  ta_sma_fits ta (close <$> rows) 50 = false ∨
  ta_sma_fits ta (close <$> rows) 200 = false ∨
  ta_zscore_fits ta (close <$> rows) 20 = false.

(** However the computation ended, the store it left satisfies [I], and
    if it raised, what it raised is [ValueError]. *)
Definition ends_in {A} (I : World → Prop) (r : result A) : Prop :=
  I (world_of r) ∧ ∀ e w', r = Raise e w' → e = ValueError.

(** ** Output discipline *)

(** The same outcome, with another store. *)
Definition set_world {A} (r : result A) (w : World) : result A :=
  match r with
  | Ok a _ => Ok a w
  | Raise e _ => Raise e w
  end.

(** A computation that treats standard output as write-only: whether it
    returns or raises it has only appended lines, and started with any
    other output it ends the same way, with the same portfolio, having
    appended the same lines. *)
Definition oblivious {A} (m : M A) : Prop :=
  ∀ w, ∃ ls,
    stdout (world_of (m w)) = stdout w ++ ls ∧
    ∀ o, m {| pf := pf w; stdout := o |} =
           set_world (m w) {| pf := pf (world_of (m w)); stdout := o ++ ls |}.

(** ** Fetching and the main block *)

(** What the price provider did with the request for the symbols and the
    date range: it raised (with the text of the exception), it returned
    something that is not a frame (with the text of its type), or it
    returned a frame, seen here as the sub-frame of each symbol of its
    index: [symbol in hist.index] is the presence of the key and
    [hist.loc[symbol]] its value.  Reading a well-formed frame does not
    raise, so the [except] branch is reached from the provider call only. *)
Inductive Response :=
  | ProviderRaised (message : string)
  | NotAFrame (type_text : string)
  | Frame (hist : gmap string (list Bar)).

(** [d[k] = v] on a dict in insertion order: an existing key keeps its
    place, a new key goes to the end. *)
Fixpoint dict_set {V} (k : string) (v : V) (d : list (string * V)) : list (string * V) :=
  match d with
  | [] => [(k, v)]
  | (k', v') :: d' =>
      if decide (k' = k) then (k, v) :: d' else (k', v') :: dict_set k v d'
  end.

(** [d.get(k)] on such a dict. *)
Fixpoint dict_get {V} (k : string) (d : list (string * V)) : option V :=
  match d with
  | [] => None
  | (k', v') :: d' => if decide (k' = k) then Some v' else dict_get k d'
  end.

(** The [for symbol in self.symbols] loop of [_fetch_data]. *)
Definition fetch_loop (symbols : list string) (hist : gmap string (list Bar))
    : list (string * list Bar) :=
  foldl (λ data symbol,
           match hist !! symbol with
           | Some df => dict_set symbol df data
           | None => data
           end) [] symbols.

(** [Backtest._fetch_data]: the [try] block around the provider call. *)
Definition _fetch_data (symbols : list string) (r : Response)
    : M (list (string * list Bar)) :=
  match r with
  | ProviderRaised message =>
      print ("Error fetching data with yahooquery: " +:+ message);;
      mret []
  | NotAFrame type_text =>
      print ("Warning: Unexpected data type returned from API: " +:+ type_text);;
      mret []
  | Frame hist => mret (fetch_loop symbols hist)
  end.

(** [Backtest.__init__]: a new portfolio, then the fetch. *)
Definition Backtest_init (symbols : list string) (capital : Qc) (r : Response)
    : M (list (string * list Bar)) :=
  (λ w, Ok tt {| pf := Portfolio_init capital; stdout := stdout w |});;
  _fetch_data symbols r.

(** The frames as [execute] iterates over them. *)
Definition as_frames (data : list (string * list Bar))
    : list (string * option (list Bar)) :=
  (λ '(symbol, df), (symbol, Some df)) <$> data.

(** The main block: the strategy shares the portfolio and the data of the
    backtest it is run by. *)
Definition main (ta : Indicators) (r : Response) : M unit :=
  data ← Backtest_init ["NVDA"; "AMD"] (Qc_of_Z 12000) r;
  run ta (as_frames data).

(** The diagnostic of a fetch that brought nothing, if it prints one. *)
Definition fetch_diagnostic (r : Response) : list line :=
  match r with
  | ProviderRaised message =>
      [Txt ("Error fetching data with yahooquery: " +:+ message)]
  | NotAFrame type_text =>
      [Txt ("Warning: Unexpected data type returned from API: " +:+ type_text)]
  | Frame _ => []
  end.

(** The provider brought no bars for any of [symbols]. *)
Definition brought_nothing (symbols : list string) (r : Response) : Prop :=
  match r with
  | Frame hist => ∀ symbol, symbol ∈ symbols → hist !! symbol = None
  | _ => True
  end.

(** ** Formatting, on examples *)

Example fmt_examples :
  fmt_2f (Qc_of_Z 100) = "100.00" ∧ fmt_2f (Q2Qc (1 # 8)) = "0.12" ∧
  fmt_2f (Q2Qc (3 # 8)) = "0.38" ∧ fmt_2f (Q2Qc (-5 # 2)) = "-2.50" ∧
  fmt_2f (Q2Qc (1999 # 1000)) = "2.00" ∧ str_int 3 = "3".
Proof. repeat split; vm_compute; reflexivity. Qed.

(** ** What one call does, branch by branch *)

Section Portfolio_calls.
Implicit Types (w : World) (symbol : string) (price : Qc) (quantity : Z).

Lemma buy_accepted w symbol price quantity :
  price * Qc_of_Z quantity ≤ capital (pf w) →
  buy symbol price quantity w =
    Ok tt {| pf := {| capital := capital (pf w) - price * Qc_of_Z quantity;
                      positions := <[symbol := (held w symbol + quantity)%Z]>
                                     (positions (pf w));
                      history := history (pf w)
                                   ++ [bought_entry symbol price quantity] |};
             stdout := stdout w |}.
Proof.
  intros Hc. unfold buy, mbind, M_bind, get_capital. cbn.
  rewrite bool_decide_eq_true_2 by exact Hc. reflexivity.
Qed.

Lemma buy_rejected w symbol price quantity :
  capital (pf w) < price * Qc_of_Z quantity →
  buy symbol price quantity w =
    Ok tt {| pf := pf w;
             stdout := stdout w
                         ++ [Txt ("Insufficient capital to buy " +:+ symbol)] |}.
Proof.
  intros Hc. unfold buy, mbind, M_bind, get_capital. cbn.
  rewrite bool_decide_eq_false_2 by (apply Qclt_not_le, Hc). reflexivity.
Qed.

Lemma sell_rejected w symbol price quantity :
  (held w symbol < quantity)%Z →
  sell symbol price quantity w =
    Ok tt {| pf := pf w;
             stdout := stdout w
                         ++ [Txt ("Not enough shares to sell " +:+ symbol)] |}.
Proof.
  intros Hq. unfold sell, mbind, M_bind, positions_get. cbn.
  fold (held w symbol).
  rewrite bool_decide_eq_false_2 by lia. reflexivity.
Qed.

(** An accepted sell of a symbol that is in the dict. *)
Lemma sell_accepted w symbol price quantity v :
  positions (pf w) !! symbol = Some v →
  (quantity ≤ v)%Z →
  sell symbol price quantity w =
    Ok tt {| pf := {| capital := capital (pf w) + price * Qc_of_Z quantity;
                      positions :=
                        if bool_decide (v - quantity = 0)%Z
                        then delete symbol (positions (pf w))
                        else <[symbol := (v - quantity)%Z]> (positions (pf w));
                      history := history (pf w)
                                   ++ [sold_entry symbol price quantity] |};
             stdout := stdout w |}.
Proof.
  intros Hv Hq. unfold sell, mbind, M_bind, positions_get. cbn.
  rewrite Hv. cbn. rewrite bool_decide_eq_true_2 by exact Hq.
  unfold positions_getitem. cbn. rewrite Hv. cbn.
  rewrite lookup_insert_eq.
  destruct (bool_decide (v - quantity = 0)%Z) eqn:E; cbn.
  - unfold positions_delitem. cbn. rewrite lookup_insert_eq.
    rewrite delete_insert_eq. reflexivity.
  - reflexivity.
Qed.

(** The guard passes for an absent symbol when [quantity ≤ 0]; the
    item read that follows raises, after the cash was credited. *)
Lemma sell_absent_raises w symbol price quantity :
  positions (pf w) !! symbol = None →
  (quantity ≤ 0)%Z →
  sell symbol price quantity w =
    Raise (KeyError symbol)
      {| pf := {| capital := capital (pf w) + price * Qc_of_Z quantity;
                  positions := positions (pf w);
                  history := history (pf w) |};
         stdout := stdout w |}.
Proof.
  intros Hv Hq. unfold sell, mbind, M_bind, positions_get. cbn.
  rewrite Hv. cbn. rewrite bool_decide_eq_true_2 by exact Hq.
  unfold positions_getitem. cbn. rewrite Hv. reflexivity.
Qed.

End Portfolio_calls.

(** ** Invariants along a sequence of calls *)

Section Invariants.
Implicit Types (w : World) (c : Call) (cs : list Call).

Lemma fresh_positions_ok (start : Qc) : positions_ok (fresh start).
Proof. intros s v H. cbn in H. rewrite lookup_empty in H. discriminate. Qed.

Lemma held_nonneg w symbol : positions_ok w → (0 ≤ held w symbol)%Z.
Proof.
  intros Hok. unfold held.
  destruct (positions (pf w) !! symbol) as [v|] eqn:E; cbn; [|lia].
  specialize (Hok _ _ E). lia.
Qed.

Lemma credit_nonneg (cap price : Qc) (quantity : Z) :
  0 ≤ cap → 0 ≤ price → (1 ≤ quantity)%Z →
  0 ≤ cap + price * Qc_of_Z quantity.
Proof.
  intros Hc Hp Hq. apply Qcplus_nonneg_nonneg; [exact Hc|].
  apply Qcmult_nonneg_nonneg; [exact Hp|].
  rewrite <- Z2Qc_inj_0. apply (proj1 (Z2Qc_inj_le 0 quantity)). lia.
Qed.

Lemma debit_nonneg (cap cost : Qc) : cost ≤ cap → 0 ≤ cap - cost.
Proof. intros H. unfold Qcminus. apply Qcle_minus_iff in H. exact H. Qed.

(** One in-precondition call returns, keeps every held count at 1 or
    more, and keeps a non-negative balance non-negative. *)
Lemma do_call_inv w c :
  call_pre c → positions_ok w →
  ∃ w', do_call c w = Ok tt w' ∧ positions_ok w' ∧
        (0 ≤ capital (pf w) → 0 ≤ capital (pf w')).
Proof.
  intros Hpre Hok. destruct c as [s p q|s p q]; cbn in Hpre |- *;
    destruct Hpre as [Hp Hq].
  - destruct (Qclt_le_dec (capital (pf w)) (p * Qc_of_Z q)) as [Hlt|Hle].
    + rewrite buy_rejected by exact Hlt. eexists; split; [reflexivity|].
      split; [exact Hok | cbn; auto].
    + rewrite buy_accepted by exact Hle. eexists; split; [reflexivity|].
      split; cbn.
      * intros s' v. cbn. rewrite lookup_insert. case_decide.
        -- intros [= <-]. pose proof (held_nonneg w s Hok). lia.
        -- apply Hok.
      * intros _. apply debit_nonneg, Hle.
  - destruct (decide (held w s < q)%Z) as [Hlt|Hge].
    + rewrite sell_rejected by exact Hlt. eexists; split; [reflexivity|].
      split; [exact Hok | cbn; auto].
    + assert (∃ v, positions (pf w) !! s = Some v ∧ (q ≤ v)%Z) as (v & Hv & Hqv).
      { unfold held in Hge.
        destruct (positions (pf w) !! s) as [v|]; cbn in Hge; [|lia].
        exists v. split; [reflexivity | lia]. }
      rewrite (sell_accepted w s p q v Hv Hqv).
      eexists; split; [reflexivity|]. split; cbn.
      * intros s' v'. cbn. case_bool_decide.
        -- rewrite lookup_delete. case_decide; [discriminate | apply Hok].
        -- rewrite lookup_insert. case_decide; [|apply Hok].
           intros [= <-]. lia.
      * intros Hc. apply credit_nonneg; assumption.
Qed.

Lemma do_calls_inv cs : ∀ w,
  Forall call_pre cs → positions_ok w →
  ∃ w', do_calls cs w = Ok tt w' ∧ positions_ok w' ∧
        (0 ≤ capital (pf w) → 0 ≤ capital (pf w')).
Proof.
  induction cs as [|c cs IH]; intros w Hpre Hok.
  - exists w. repeat split; auto.
  - inversion Hpre as [|? ? Hc Hcs]; subst.
    destruct (do_call_inv w c Hc Hok) as (w1 & E1 & Hok1 & Hcap1).
    destruct (IH w1 Hcs Hok1) as (w2 & E2 & Hok2 & Hcap2).
    exists w2. cbn. unfold mbind, M_bind. rewrite E1.
    repeat split; auto.
Qed.

Lemma Forall_take_pre n cs : Forall call_pre cs → Forall call_pre (take n cs).
Proof. apply Forall_take. Qed.

End Invariants.

(** ** Calls that cannot raise *)

(** [buy] never raises, whatever its arguments. *)
Lemma buy_returns (w : World) (symbol : string) (price : Qc) (quantity : Z) :
  ∃ w', buy symbol price quantity w = Ok tt w'.
Proof.
  destruct (Qclt_le_dec (capital (pf w)) (price * Qc_of_Z quantity)) as [H|H].
  - rewrite buy_rejected by exact H. eauto.
  - rewrite buy_accepted by exact H. eauto.
Qed.

(** [sell] of at least one share never raises. *)
Lemma sell_returns (w : World) (symbol : string) (price : Qc) (quantity : Z) :
  (1 ≤ quantity)%Z → ∃ w', sell symbol price quantity w = Ok tt w'.
Proof.
  intros Hq. destruct (decide (held w symbol < quantity)%Z) as [H|H].
  - rewrite sell_rejected by exact H. eauto.
  - unfold held in H.
    destruct (positions (pf w) !! symbol) as [v|] eqn:Ev; cbn in H; [|lia].
    rewrite (sell_accepted w symbol price quantity v Ev) by lia. eauto.
Qed.

(** ** The loop body and the loops *)

Lemma fgt_irrefl (a : fval) : fgt a a = false.
Proof.
  destruct a as [| | |x]; cbn; try reflexivity.
  apply bool_decide_eq_false_2. intros H.
  exact (Qclt_not_eq _ _ H eq_refl).
Qed.

Lemma fgt_nan_l (a : fval) : fgt NaN a = false.
Proof. reflexivity. Qed.

Lemma fgt_nan_r (a : fval) : fgt a NaN = false.
Proof. destruct a; reflexivity. Qed.

Lemma rotation_cond_zscore (rsi sma50 sma200 zscore : fval) :
  rotation_cond rsi sma50 sma200 zscore = fgt zscore (Fin 1).
Proof. unfold rotation_cond. rewrite fgt_irrefl. reflexivity. Qed.

(** The body of a bar is the four calls in a row, or nothing. *)
Lemma bar_body_calls (price : Qc) (volume : Z) (rsi sma50 sma200 zscore : fval)
    (w : World) :
  bar_body price volume rsi sma50 sma200 zscore w =
    if fgt zscore (Fin 1) then do_calls (rotation_calls price) w else Ok tt w.
Proof.
  unfold bar_body. rewrite rotation_cond_zscore.
  destruct (fgt zscore (Fin 1)); [|reflexivity].
  cbn. unfold mbind, M_bind.
  destruct (buy_returns w "NVDA" price 1) as [w1 ->].
  destruct (sell_returns w1 "AMD" price 1 ltac:(lia)) as [w2 ->].
  destruct (buy_returns w2 "AMD" price 1) as [w3 ->].
  destruct (sell_returns w3 "NVDA" price 1 ltac:(lia)) as [w4 ->].
  reflexivity.
Qed.

Lemma do_calls_returns (cs : list Call) : ∀ w,
  Forall (λ c, match c with Buy _ _ _ => True | Sell _ _ q => (1 ≤ q)%Z end) cs →
  ∃ w', do_calls cs w = Ok tt w'.
Proof.
  induction cs as [|c cs IH]; intros w Hq; [eexists; reflexivity|].
  inversion Hq as [|? ? Hc Hcs]; subst. cbn. unfold mbind, M_bind.
  destruct c as [s p q|s p q]; cbn.
  - destruct (buy_returns w s p q) as [w1 ->]. apply IH, Hcs.
  - destruct (sell_returns w s p q Hc) as [w1 ->]. apply IH, Hcs.
Qed.

Lemma bar_body_returns (price : Qc) (volume : Z) (rsi sma50 sma200 zscore : fval)
    (w : World) :
  ∃ w', bar_body price volume rsi sma50 sma200 zscore w = Ok tt w'.
Proof.
  rewrite bar_body_calls. destruct (fgt zscore (Fin 1)); [|eauto].
  apply do_calls_returns. repeat constructor; lia.
Qed.

Lemma loop_index_in_range (df : list Bar) (i : nat) :
  i ∈ seq 1 (length df - 1) → (1 ≤ i)%nat ∧ is_Some (df !! i).
Proof.
  intros Hi. apply elem_of_seq in Hi. split; [lia|].
  apply lookup_lt_is_Some. lia.
Qed.

Lemma for_each_returns {A} (xs : list A) (body : A → M unit) :
  (∀ x w, x ∈ xs → ∃ w', body x w = Ok tt w') →
  ∀ w, ∃ w', for_each xs body w = Ok tt w'.
Proof.
  induction xs as [|x xs IH]; intros Hbody w; [eexists; reflexivity|].
  cbn. unfold mbind, M_bind.
  destruct (Hbody x w) as [w1 ->]; [left|].
  apply IH. intros y w' Hy. apply Hbody. right. exact Hy.
Qed.

Lemma for_each_print (h : list string) : ∀ w,
  for_each h print w = Ok tt {| pf := pf w; stdout := stdout w ++ (Txt <$> h) |}.
Proof.
  induction h as [|e h IH]; intros w.
  - cbn. rewrite app_nil_r. destruct w; reflexivity.
  - cbn. unfold mbind, M_bind. cbn. rewrite IH. cbn.
    rewrite <- app_assoc. reflexivity.
Qed.

Section Strategy_facts.
Variable ta : Indicators.

Lemma bar_at_calls (df : list Bar) (i : nat) (row : Bar) (w : World) :
  df !! i = Some row →
  bar_at ta df i w =
    if fgt (ta_zscore ta (close <$> df) 20 i) (Fin 1)
    then do_calls (rotation_calls (close row)) w
    else Ok tt w.
Proof.
  intros Hrow. unfold bar_at, mbind, M_bind, iloc. rewrite Hrow.
  apply bar_body_calls.
Qed.

Lemma bar_at_returns (df : list Bar) (i : nat) (w : World) :
  i ∈ seq 1 (length df - 1) → ∃ w', bar_at ta df i w = Ok tt w'.
Proof.
  intros Hi. destruct (loop_index_in_range df i Hi) as [_ [row Hrow]].
  unfold bar_at, mbind, M_bind, iloc. rewrite Hrow.
  apply bar_body_returns.
Qed.

Lemma execute_returns (data : list (string * option (list Bar))) (w : World) :
  indicators_fit ta data → ∃ w', execute ta data w = Ok tt w'.
Proof.
  intros Hfit. unfold execute. apply for_each_returns.
  intros [symbol [[|b rows]|]] w0 Hin; try (eexists; reflexivity).
  destruct (Hfit symbol (b :: rows) Hin) as (-> & -> & -> & ->); [discriminate|].
  apply for_each_returns. intros i w1 Hi. apply bar_at_returns, Hi.
Qed.

End Strategy_facts.

(** * The specification's claims *)

(** ** Portfolio invariants *)

(** C1.  From any starting capital [≥ 0], along any sequence of [buy] and
    [sell] calls whose arguments meet the preconditions (price [≥ 0],
    quantity [≥ 1]), every call returns and the cash balance after it is
    [≥ 0]; and a [buy] whose cost exceeds the cash in hand leaves the
    balance as it was. *)
Theorem cash_never_negative (start : Qc) (cs : list Call) :
  0 ≤ start →
  Forall call_pre cs →
  (∀ n, ∃ w, do_calls (take n cs) (fresh start) = Ok tt w ∧ 0 ≤ capital (pf w)) ∧
  (∀ w symbol price quantity,
     capital (pf w) < price * Qc_of_Z quantity →
     ∃ w', buy symbol price quantity w = Ok tt w' ∧
           capital (pf w') = capital (pf w)).
Proof.
  intros Hstart Hpre. split.
  - intros n.
    destruct (do_calls_inv (take n cs) (fresh start)
                (Forall_take_pre n cs Hpre) (fresh_positions_ok start))
      as (w & E & _ & Hcap).
    exists w. split; [exact E | apply Hcap, Hstart].
  - intros w symbol price quantity Hlt.
    rewrite buy_rejected by exact Hlt. eexists; split; reflexivity.
Qed.

Lemma cash_never_negative_witness :
  (∀ n, ∃ w,
     do_calls (take n [Buy "X" (Qc_of_Z 100) 3; Sell "X" (Qc_of_Z 110) 3;
                       Buy "Y" (Qc_of_Z 2000) 1; Sell "Y" (Qc_of_Z 5) 1])
       (fresh (Qc_of_Z 1000)) = Ok tt w ∧ 0 ≤ capital (pf w)) ∧
  (∃ w', buy "X" (Qc_of_Z 100) 1 (fresh (Qc_of_Z 50)) = Ok tt w' ∧
         capital (pf w') = capital (pf (fresh (Qc_of_Z 50)))).
Proof.
  destruct (cash_never_negative (Qc_of_Z 1000)
              [Buy "X" (Qc_of_Z 100) 3; Sell "X" (Qc_of_Z 110) 3;
               Buy "Y" (Qc_of_Z 2000) 1; Sell "Y" (Qc_of_Z 5) 1]) as [H1 H2].
  - vm_compute. discriminate.
  - repeat constructor; vm_compute; discriminate.
  - split; [exact H1|].
    apply (H2 (fresh (Qc_of_Z 50)) "X" (Qc_of_Z 100) 1%Z).
    vm_compute. reflexivity.
Defined.

(** C2.  Along any sequence of in-precondition [buy] and [sell] calls on a
    new portfolio, after every call each symbol's count is [≥ 0], and the
    symbol is a key of the positions dict exactly when its count is not
    zero. *)
Theorem positions_nonneg_and_no_zero_entry (start : Qc) (cs : list Call) :
  Forall call_pre cs →
  ∀ n, ∃ w,
    do_calls (take n cs) (fresh start) = Ok tt w ∧
    ∀ symbol,
      (0 ≤ held w symbol)%Z ∧
      (is_Some (positions (pf w) !! symbol) ↔ held w symbol ≠ 0%Z).
Proof.
  intros Hpre n.
  destruct (do_calls_inv (take n cs) (fresh start)
              (Forall_take_pre n cs Hpre) (fresh_positions_ok start))
    as (w & E & Hok & _).
  exists w. split; [exact E|]. intros symbol.
  split; [apply held_nonneg, Hok|].
  unfold held. destruct (positions (pf w) !! symbol) as [v|] eqn:Ev; cbn.
  - specialize (Hok _ _ Ev). split; [lia | eauto].
  - split; [intros [? ?]; discriminate | lia].
Qed.

Lemma positions_nonneg_and_no_zero_entry_witness :
  ∃ w,
    do_calls (take 3 [Buy "X" (Qc_of_Z 100) 3; Sell "X" (Qc_of_Z 110) 2;
                      Sell "X" (Qc_of_Z 110) 1; Sell "X" (Qc_of_Z 110) 1])
      (fresh (Qc_of_Z 1000)) = Ok tt w ∧
    ∀ symbol,
      (0 ≤ held w symbol)%Z ∧
      (is_Some (positions (pf w) !! symbol) ↔ held w symbol ≠ 0%Z).
Proof.
  apply (positions_nonneg_and_no_zero_entry (Qc_of_Z 1000)
           [Buy "X" (Qc_of_Z 100) 3; Sell "X" (Qc_of_Z 110) 2;
            Sell "X" (Qc_of_Z 110) 1; Sell "X" (Qc_of_Z 110) 1]).
  repeat constructor; vm_compute; discriminate.
Defined.

(** ** Rejected trades *)

(** C4.  In any portfolio state, a [buy] whose cost exceeds the cash and a
    [sell] of more shares than are held return normally and leave the cash,
    the whole positions dict and the ledger as they were: only the
    diagnostic line is printed. *)
Theorem rejected_trade_is_noop (w : World) (c : Call) :
  rejected w c →
  ∃ w', do_call c w = Ok tt w' ∧
        capital (pf w') = capital (pf w) ∧
        positions (pf w') = positions (pf w) ∧
        length (history (pf w')) = length (history (pf w)).
Proof.
  destruct c as [s p q|s p q]; cbn; intros Hrej.
  - rewrite buy_rejected by exact Hrej. eexists; repeat split; reflexivity.
  - rewrite sell_rejected by exact Hrej. eexists; repeat split; reflexivity.
Qed.

Lemma rejected_trade_is_noop_witness :
  (∃ w', do_call (Buy "X" (Qc_of_Z 100) 1) (fresh (Qc_of_Z 50)) = Ok tt w' ∧
         capital (pf w') = capital (pf (fresh (Qc_of_Z 50))) ∧
         positions (pf w') = positions (pf (fresh (Qc_of_Z 50))) ∧
         length (history (pf w')) = length (history (pf (fresh (Qc_of_Z 50))))) ∧
  (∃ w', do_call (Sell "X" (Qc_of_Z 100) 1) (fresh (Qc_of_Z 50)) = Ok tt w' ∧
         capital (pf w') = capital (pf (fresh (Qc_of_Z 50))) ∧
         positions (pf w') = positions (pf (fresh (Qc_of_Z 50))) ∧
         length (history (pf w')) = length (history (pf (fresh (Qc_of_Z 50))))).
Proof.
  split.
  - apply (rejected_trade_is_noop (fresh (Qc_of_Z 50)) (Buy "X" (Qc_of_Z 100) 1)).
    vm_compute. reflexivity.
  - apply (rejected_trade_is_noop (fresh (Qc_of_Z 50)) (Sell "X" (Qc_of_Z 100) 1)).
    vm_compute. reflexivity.
Defined.

(** ** Exceptions *)

(** C5.  Selling zero shares of a symbol that is not in the positions dict
    passes the guard ([0 >= 0]) and then raises [KeyError] at the item
    update; here on a new portfolio with capital 1000, for
    [sell("X", 100, 0)]. *)
Theorem sell_zero_of_absent_symbol_raises :
  ∃ w', sell "X" (Qc_of_Z 100) 0 (fresh (Qc_of_Z 1000)) = Raise (KeyError "X") w' ∧
        capital (pf w') = Qc_of_Z 1000 ∧
        positions (pf w') = ∅ ∧
        history (pf w') = [].
Proof.
  rewrite sell_absent_raises by (reflexivity || lia).
  eexists; split; [reflexivity|]. cbn. repeat split.
  apply Qc_is_canon. reflexivity.
Qed.

(** ** Out-of-precondition buy *)

(** C10.  When [symbol] is not in the positions dict and [0 ≤ price ≤ cash],
    [buy(symbol, price, 0)] is accepted: the cash is unchanged, a BOUGHT
    entry of quantity 0 is appended to the ledger, and [symbol] enters the
    dict with count 0. *)
Theorem buy_zero_inserts_zero_entry (w : World) (symbol : string) (price : Qc) :
  positions (pf w) !! symbol = None →
  0 ≤ capital (pf w) →
  0 ≤ price ≤ capital (pf w) →
  ∃ w', buy symbol price 0 w = Ok tt w' ∧
        capital (pf w') = capital (pf w) ∧
        history (pf w') = history (pf w) ++ [bought_entry symbol price 0] ∧
        bought_entry symbol price 0 = "BOUGHT 0 " +:+ symbol +:+ " @ " +:+ fmt_2f price ∧
        positions (pf w') = <[symbol := 0%Z]> (positions (pf w)) ∧
        positions (pf w') !! symbol = Some 0%Z.
Proof.
  intros Habs Hcap _.
  assert (price * Qc_of_Z 0 = 0) as Hcost by (rewrite Z2Qc_inj_0; ring).
  rewrite buy_accepted by (rewrite Hcost; exact Hcap).
  eexists; split; [reflexivity|]. cbn.
  assert (held w symbol = 0%Z) as -> by (unfold held; rewrite Habs; reflexivity).
  repeat split.
  - rewrite Hcost. ring.
  - apply lookup_insert_eq.
Qed.

Lemma buy_zero_inserts_zero_entry_witness :
  ∃ w', buy "X" (Qc_of_Z 100) 0 (fresh (Qc_of_Z 1000)) = Ok tt w' ∧
        capital (pf w') = capital (pf (fresh (Qc_of_Z 1000))) ∧
        history (pf w') =
          history (pf (fresh (Qc_of_Z 1000))) ++ [bought_entry "X" (Qc_of_Z 100) 0] ∧
        bought_entry "X" (Qc_of_Z 100) 0 =
          "BOUGHT 0 " +:+ "X" +:+ " @ " +:+ fmt_2f (Qc_of_Z 100) ∧
        positions (pf w') = <["X" := 0%Z]> (positions (pf (fresh (Qc_of_Z 1000)))) ∧
        positions (pf w') !! "X" = Some 0%Z.
Proof.
  apply (buy_zero_inserts_zero_entry (fresh (Qc_of_Z 1000)) "X" (Qc_of_Z 100)).
  - reflexivity.
  - vm_compute. discriminate.
  - split; vm_compute; discriminate.
Defined.

(** ** Round trip *)

(** C7, as stated, fails.  With no cash left and one share of X held,
    [buy("X", 100, 1)] is rejected and the [sell("X", 100, 1)] that follows
    is accepted: the cash goes from 0 to 100 and X leaves the dict. *)
Lemma round_trip_counterexample :
  0 ≤ Qc_of_Z 100 ∧ (1 ≤ 1)%Z ∧
  ∃ w', (buy "X" (Qc_of_Z 100) 1;; sell "X" (Qc_of_Z 100) 1) spent_on_x = Ok tt w' ∧
        capital (pf spent_on_x) = Qc_of_Z 0 ∧
        capital (pf w') = Qc_of_Z 100 ∧
        capital (pf w') ≠ capital (pf spent_on_x) ∧
        positions (pf spent_on_x) !! "X" = Some 1%Z ∧
        positions (pf w') !! "X" = None ∧
        positions (pf w') ≠ positions (pf spent_on_x).
Proof.
  split; [vm_compute; discriminate|]. split; [lia|].
  eexists. split; [vm_compute; reflexivity|].
  assert (∀ x y : Qc, (this x == this y)%Q → x = y) as canon
    by (intros; apply Qc_is_canon; assumption).
  repeat split.
  - apply canon. reflexivity.
  - apply canon. reflexivity.
  - intros H. apply (f_equal this) in H. vm_compute in H. discriminate.
  - intros H. apply (f_equal (λ m : gmap string Z, m !! "X")) in H.
    vm_compute in H. discriminate.
Qed.

(** C7, amended.  When the buy is accepted (its cost is within the cash)
    and [symbol] is either not held or held at least once, a
    [buy(symbol, price, quantity)] followed at once by
    [sell(symbol, price, quantity)] returns with the positions dict equal
    to what it was before the buy; and when the cash and the price are
    integers, whose arithmetic is exact, the cash balance too is what it
    was before the buy. *)
Theorem accepted_round_trip (w : World) (symbol : string) (price : Qc) (quantity : Z) :
  0 ≤ price →
  (1 ≤ quantity)%Z →
  price * Qc_of_Z quantity ≤ capital (pf w) →
  (∀ v, positions (pf w) !! symbol = Some v → (1 ≤ v)%Z) →
  ∃ w', (buy symbol price quantity;; sell symbol price quantity) w = Ok tt w' ∧
        positions (pf w') = positions (pf w) ∧
        (∀ cash p : Z,
           capital (pf w) = Qc_of_Z cash → price = Qc_of_Z p →
           capital (pf w') = Qc_of_Z cash).
Proof.
  intros _ Hq Hcost Hheld.
  unfold mbind, M_bind. rewrite buy_accepted by exact Hcost.
  assert (0 ≤ held w symbol)%Z as Hnn.
  { unfold held. destruct (positions (pf w) !! symbol) as [v|] eqn:Ev; cbn; [|lia].
    specialize (Hheld v eq_refl). lia. }
  erewrite sell_accepted; [| cbn; apply lookup_insert_eq | lia].
  eexists; split; [reflexivity|]. cbn. split.
  - replace (held w symbol + quantity - quantity)%Z with (held w symbol) by lia.
    case_bool_decide as Hz.
    + rewrite delete_insert_eq. apply delete_id.
      unfold held in Hz. destruct (positions (pf w) !! symbol) as [v|] eqn:Ev;
        [|reflexivity].
      cbn in Hz. specialize (Hheld v eq_refl). lia.
    + rewrite insert_insert_eq. apply insert_id.
      unfold held in Hz |- *. destruct (positions (pf w) !! symbol) as [v|] eqn:Ev;
        [reflexivity | cbn in Hz; lia].
  - intros cash p Hcash _. rewrite <- Hcash. ring.
Qed.

Lemma accepted_round_trip_witness :
  ∃ w', (buy "X" (Qc_of_Z 100) 3;; sell "X" (Qc_of_Z 100) 3) (fresh (Qc_of_Z 1000))
          = Ok tt w' ∧
        positions (pf w') = positions (pf (fresh (Qc_of_Z 1000))) ∧
        capital (pf w') = Qc_of_Z 1000.
Proof.
  destruct (accepted_round_trip (fresh (Qc_of_Z 1000)) "X" (Qc_of_Z 100) 3)
    as (w' & E & Hpos & Hcash).
  - vm_compute. discriminate.
  - lia.
  - vm_compute. discriminate.
  - intros v H. vm_compute in H. discriminate.
  - exists w'. split; [exact E|]. split; [exact Hpos|].
    apply (Hcash 1000%Z 100%Z); reflexivity.
Defined.

(** ** The worked scenario *)

(** C8, as stated, fails on the text of the ledger entry: after
    [Portfolio(1000).buy("X", 100, 3)] the ledger holds one entry, and it is
    not the string [BUY 3 X@100.00]. *)
Lemma scenario_entry_counterexample :
  history (pf (world_of (buy "X" (Qc_of_Z 100) 3 (fresh (Qc_of_Z 1000)))))
    = ["BOUGHT 3 X @ 100.00"] ∧
  history (pf (world_of (buy "X" (Qc_of_Z 100) 3 (fresh (Qc_of_Z 1000)))))
    ≠ ["BUY 3 X@100.00"].
Proof. split; [vm_compute; reflexivity | vm_compute; discriminate]. Qed.

(** C8, amended.  On a portfolio with capital 1000, [buy("X", 100, 3)]
    gives cash 700, 3 shares of X and the one ledger entry
    [BOUGHT 3 X @ 100.00]; then [sell("X", 110, 3)] gives cash 1030, no X
    key in the dict and a ledger of exactly 2 entries, the second being
    [SOLD   3 X @ 110.00]. *)
Theorem scenario_buy_then_sell :
  ∃ w1 w2,
    buy "X" (Qc_of_Z 100) 3 (fresh (Qc_of_Z 1000)) = Ok tt w1 ∧
    capital (pf w1) = Qc_of_Z 700 ∧
    positions (pf w1) !! "X" = Some 3%Z ∧
    history (pf w1) = ["BOUGHT 3 X @ 100.00"] ∧
    sell "X" (Qc_of_Z 110) 3 w1 = Ok tt w2 ∧
    capital (pf w2) = Qc_of_Z 1030 ∧
    positions (pf w2) !! "X" = None ∧
    positions (pf w2) = ∅ ∧
    length (history (pf w2)) = 2%nat ∧
    history (pf w2) = ["BOUGHT 3 X @ 100.00"; "SOLD   3 X @ 110.00"].
Proof.
  eexists. eexists.
  split; [vm_compute; reflexivity|].
  split; [apply Qc_is_canon; reflexivity|].
  split; [reflexivity|].
  split; [reflexivity|].
  split; [vm_compute; reflexivity|].
  split; [apply Qc_is_canon; reflexivity|].
  repeat split.
Qed.

(** ** The decision rule *)

(** C3.  At every bar index the loop visits, the row read exists, the
    condition [(rsi > rsi and sma50 > sma200) or (zscore > 1)] equals
    [zscore > 1] for all four indicator values, and both [if] statements
    test it: when it holds the iteration is exactly buy NVDA, sell AMD,
    buy AMD, sell NVDA, one share each at the bar's close; when it does not,
    the iteration does nothing. *)
Theorem rotation_rule_is_zscore_only (ta : Indicators) (df : list Bar) (i : nat) :
  i ∈ seq 1 (length df - 1) →
  (1 ≤ i)%nat ∧
  (∀ rsi sma50 sma200 zscore,
     rotation_cond rsi sma50 sma200 zscore = fgt zscore (Fin 1)) ∧
  ∃ row, df !! i = Some row ∧
    ∀ w, bar_at ta df i w =
           if fgt (ta_zscore ta (close <$> df) 20 i) (Fin 1)
           then do_calls [Buy "NVDA" (close row) 1; Sell "AMD" (close row) 1;
                          Buy "AMD" (close row) 1; Sell "NVDA" (close row) 1] w
           else Ok tt w.
Proof.
  intros Hi. destruct (loop_index_in_range df i Hi) as [H1 [row Hrow]].
  split; [exact H1|]. split; [apply rotation_cond_zscore|].
  exists row. split; [exact Hrow|]. intros w.
  apply bar_at_calls, Hrow.
Qed.

Lemma rotation_rule_is_zscore_only_witness :
  (1 ≤ 1)%nat ∧
  (∀ rsi sma50 sma200 zscore,
     rotation_cond rsi sma50 sma200 zscore = fgt zscore (Fin 1)) ∧
  ∃ row, two_bars !! 1%nat = Some row ∧
    ∀ w, bar_at warmup_indicators two_bars 1 w =
           if fgt (ta_zscore warmup_indicators (close <$> two_bars) 20 1) (Fin 1)
           then do_calls [Buy "NVDA" (close row) 1; Sell "AMD" (close row) 1;
                          Buy "AMD" (close row) 1; Sell "NVDA" (close row) 1] w
           else Ok tt w.
Proof.
  apply (rotation_rule_is_zscore_only warmup_indicators two_bars 1).
  apply elem_of_seq. simpl. lia.
Defined.

(** C6, as stated, fails.  At a bar where RSI and both moving averages are
    NaN and the z-score is 2, the loop trades: on a portfolio with capital
    12000 it leaves three ledger entries. *)
Lemma nan_indicator_counterexample :
  ta_rsi warmup_indicators (close <$> two_bars) 14 1 = NaN ∧
  ta_sma warmup_indicators (close <$> two_bars) 50 1 = NaN ∧
  ta_sma warmup_indicators (close <$> two_bars) 200 1 = NaN ∧
  1%nat ∈ seq 1 (length two_bars - 1) ∧
  ∃ w', bar_at warmup_indicators two_bars 1 (fresh (Qc_of_Z 12000)) = Ok tt w' ∧
        history (pf w') = ["BOUGHT 1 NVDA @ 10.00"; "BOUGHT 1 AMD @ 10.00";
                           "SOLD   1 NVDA @ 10.00"] ∧
        w' ≠ fresh (Qc_of_Z 12000).
Proof.
  repeat split; [apply elem_of_seq; simpl; lia|].
  eexists. split; [vm_compute; reflexivity|]. split; [reflexivity|].
  intros H. apply (f_equal (λ w, length (history (pf w)))) in H.
  vm_compute in H. discriminate.
Qed.

(** C6, amended.  A comparison with NaN on either side is false.  At every
    bar index the loop visits, whatever the indicator values, the iteration
    returns without raising; and when the z-score read there is NaN it
    issues no trade and leaves the portfolio and the output untouched,
    whatever the other three values. *)
Theorem nan_zscore_blocks_trading (ta : Indicators) (df : list Bar) (i : nat) :
  i ∈ seq 1 (length df - 1) →
  (∀ a, fgt NaN a = false ∧ fgt a NaN = false) ∧
  (∀ w, ∃ w', bar_at ta df i w = Ok tt w') ∧
  (ta_zscore ta (close <$> df) 20 i = NaN → ∀ w, bar_at ta df i w = Ok tt w).
Proof.
  intros Hi. split; [|split].
  - intros a. split; [apply fgt_nan_l | apply fgt_nan_r].
  - intros w. apply bar_at_returns, Hi.
  - intros Hz w. destruct (loop_index_in_range df i Hi) as [_ [row Hrow]].
    rewrite (bar_at_calls ta df i row w Hrow), Hz. reflexivity.
Qed.

Lemma nan_zscore_blocks_trading_witness :
  ta_zscore no_zscore_indicators (close <$> two_bars) 20 1 = NaN ∧
  (∀ w, ∃ w', bar_at no_zscore_indicators two_bars 1 w = Ok tt w') ∧
  (∀ w, bar_at no_zscore_indicators two_bars 1 w = Ok tt w).
Proof.
  destruct (nan_zscore_blocks_trading no_zscore_indicators two_bars 1)
    as (_ & H1 & H2).
  - apply elem_of_seq. simpl. lia.
  - split; [reflexivity|]. split; [exact H1 | exact (H2 eq_refl)].
Defined.

(** ** Ledger text and report *)

Lemma string_app_assoc (a b c : string) : (a +:+ b) +:+ c = a +:+ (b +:+ c).
Proof.
  induction a as [|x a IH]; [reflexivity|].
  change (String x ((a +:+ b) +:+ c) = String x (a +:+ (b +:+ c))).
  rewrite IH. reflexivity.
Qed.

Lemma digit_is_digit (d : Z) : is_digit (digit d) = true.
Proof. unfold digit, pretty_N_char. repeat case_match; reflexivity. Qed.

(** C9, as stated, fails.  The entry recorded by the accepted
    [Portfolio(1000).buy("X", 100, 3)] is [BOUGHT 3 X @ 100.00]: it does not
    open with BUY or SELL, and the quantity is written [3], not with two
    decimals ([3.00] occurs nowhere in it). *)
Lemma ledger_entry_form_counterexample :
  ∃ e, history (pf (world_of (buy "X" (Qc_of_Z 100) 3 (fresh (Qc_of_Z 1000))))) = [e] ∧
       e = "BOUGHT 3 X @ 100.00" ∧
       ¬ spec_entry_form e ∧
       fmt_2f (Qc_of_Z 3) = "3.00" ∧
       String.index 0 (fmt_2f (Qc_of_Z 3)) e = None.
Proof.
  eexists. split; [vm_compute; reflexivity|]. split; [reflexivity|].
  split; [|split; vm_compute; reflexivity].
  intros [rest [H|H]]; cbn in H; discriminate H.
Qed.

(** C9, amended.  An accepted buy appends the entry
    [BOUGHT <quantity> <symbol> @ <price>] and an accepted sell the entry
    [SOLD   <quantity> <symbol> @ <price>] at the end of the ledger, the
    quantity written as a plain integer and the price with exactly two
    decimals; when the indicator columns can be assigned on every frame
    that has bars, [Backtest.run] returns, and under "Trade History:" it
    prints the ledger entries one per line, in ledger order, before the
    closing lines of the report. *)
Theorem ledger_entries_and_report (ta : Indicators)
    (data : list (string * option (list Bar))) (w : World) :
  (∀ symbol price quantity,
     price * Qc_of_Z quantity ≤ capital (pf w) →
     ∃ w', buy symbol price quantity w = Ok tt w' ∧
           history (pf w') =
             history (pf w) ++ ["BOUGHT " +:+ str_int quantity +:+ " " +:+ symbol
                                  +:+ " @ " +:+ fmt_2f price]) ∧
  (∀ symbol price quantity,
     (1 ≤ quantity ≤ held w symbol)%Z →
     ∃ w', sell symbol price quantity w = Ok tt w' ∧
           history (pf w') =
             history (pf w) ++ ["SOLD   " +:+ str_int quantity +:+ " " +:+ symbol
                                  +:+ " @ " +:+ fmt_2f price]) ∧
  (∀ price, ∃ whole d1 d2,
     fmt_2f price = whole +:+ "." +:+ String d1 (String d2 "") ∧
     is_digit d1 = true ∧ is_digit d2 = true) ∧
  (indicators_fit ta data →
   ∃ w' pre,
     run ta data w = Ok tt w' ∧
     stdout w' =
       pre ++ [Txt "Trade History:"] ++ trade_lines (history (pf w'))
           ++ [Txt (nl +:+ "Final Portfolio:");
               Txt ("Capital: $" +:+ fmt_2f (capital (pf w')));
               PositionsLine (positions (pf w'))]).
Proof.
  split; [|split; [|split]].
  - intros symbol price quantity Hc. rewrite buy_accepted by exact Hc.
    eexists; split; reflexivity.
  - intros symbol price quantity [Hq Hh]. unfold held in Hh.
    destruct (positions (pf w) !! symbol) as [v|] eqn:Ev; cbn in Hh; [|lia].
    rewrite (sell_accepted w symbol price quantity v Ev Hh).
    eexists; split; reflexivity.
  - intros price. unfold fmt_2f, two_digits.
    eexists _, _, _. rewrite <- string_app_assoc.
    split; [reflexivity|]. split; apply digit_is_digit.
  - intros Hfit. unfold run, mbind, M_bind. cbn.
    match goal with |- context [execute ta data ?w0] =>
      destruct (execute_returns ta data w0 Hfit) as [w1 ->] end.
    cbn. destruct (history (pf w1)) as [|e h] eqn:Eh.
    + cbn. eexists _, (stdout w1 ++ [_]). split; [reflexivity|].
      cbn. rewrite Eh. cbn. rewrite <- !app_assoc. reflexivity.
    + rewrite for_each_print. cbn.
      eexists _, (stdout w1 ++ [_]). split; [reflexivity|].
      cbn. rewrite Eh. cbn. rewrite <- !app_assoc. reflexivity.
Qed.

Lemma ledger_entries_and_report_witness :
  (∃ w', buy "X" (Qc_of_Z 100) 3 (fresh (Qc_of_Z 1000)) = Ok tt w' ∧
         history (pf w') = [] ++ ["BOUGHT " +:+ str_int 3 +:+ " " +:+ "X"
                                    +:+ " @ " +:+ fmt_2f (Qc_of_Z 100)]) ∧
  (∃ w', sell "X" (Qc_of_Z 100) 1 spent_on_x = Ok tt w' ∧
         history (pf w') =
           history (pf spent_on_x) ++ ["SOLD   " +:+ str_int 1 +:+ " " +:+ "X"
                                         +:+ " @ " +:+ fmt_2f (Qc_of_Z 100)]) ∧
  (∃ w' pre,
     run warmup_indicators [("NVDA", Some two_bars)] (fresh (Qc_of_Z 12000))
       = Ok tt w' ∧
     stdout w' =
       pre ++ [Txt "Trade History:"] ++ trade_lines (history (pf w'))
           ++ [Txt (nl +:+ "Final Portfolio:");
               Txt ("Capital: $" +:+ fmt_2f (capital (pf w')));
               PositionsLine (positions (pf w'))]).
Proof.
  split; [|split].
  - apply (ledger_entries_and_report warmup_indicators [] (fresh (Qc_of_Z 1000))).
    vm_compute. discriminate.
  - apply (ledger_entries_and_report warmup_indicators [] spent_on_x).
    vm_compute. split; discriminate.
  - apply (ledger_entries_and_report warmup_indicators
             [("NVDA", Some two_bars)] (fresh (Qc_of_Z 12000))).
    intros symbol rows _ _. repeat split.
Defined.

(** * Further properties of the code *)

(** ** Portfolio: what a call can and cannot touch *)

(** Every way a call can end. *)
Lemma do_call_cases (w : World) (c : Call) :
  (accepts w c = true ∧
   ∃ w' e, do_call c w = Ok tt w' ∧
           history (pf w') = history (pf w) ++ [e] ∧ stdout w' = stdout w) ∨
  (accepts w c = false ∧
   ∃ w' l, do_call c w = Ok tt w' ∧
           pf w' = pf w ∧ stdout w' = stdout w ++ [l]) ∨
  (accepts w c = true ∧
   ∃ s p q, c = Sell s p q ∧ positions (pf w) !! s = None ∧ (q ≤ 0)%Z ∧
            do_call c w =
              Raise (KeyError s)
                {| pf := {| capital := capital (pf w) + p * Qc_of_Z q;
                            positions := positions (pf w);
                            history := history (pf w) |};
                   stdout := stdout w |}).
Proof.
  destruct c as [s p q|s p q]; cbn [do_call accepts].
  - destruct (Qclt_le_dec (capital (pf w)) (p * Qc_of_Z q)) as [Hlt|Hle].
    + right; left. split; [apply bool_decide_eq_false_2, Qclt_not_le, Hlt|].
      rewrite buy_rejected by exact Hlt. eexists _, _. repeat split.
    + left. split; [apply bool_decide_eq_true_2, Hle|].
      rewrite buy_accepted by exact Hle. eexists _, _. repeat split.
  - destruct (decide (held w s < q)%Z) as [Hlt|Hge].
    + right; left. split; [apply bool_decide_eq_false_2; lia|].
      rewrite sell_rejected by exact Hlt. eexists _, _. repeat split.
    + assert (accepts w (Sell s p q) = true) as Hacc
        by (apply bool_decide_eq_true_2; lia).
      cbn in Hacc. rewrite Hacc. unfold held in Hge.
      destruct (positions (pf w) !! s) as [v|] eqn:Ev; cbn in Hge.
      * left. split; [reflexivity|].
        rewrite (sell_accepted w s p q v Ev) by lia.
        eexists _, _. repeat split.
      * right; right. split; [reflexivity|].
        exists s, p, q.
        split; [reflexivity|]. split; [exact Ev|]. split; [lia|].
        apply sell_absent_raises; [exact Ev | lia].
Qed.

(** *** Linear arithmetic on [Qc], through [Q] *)

Lemma Qc_this_plus (x y : Qc) : (this (x + y) == this x + this y)%Q.
Proof. unfold Qcplus. cbn. apply Qred_correct. Qed.

Lemma Qc_this_mult (x y : Qc) : (this (x * y) == this x * this y)%Q.
Proof. unfold Qcmult. cbn. apply Qred_correct. Qed.

Lemma Qc_this_opp (x : Qc) : (this (- x) == - this x)%Q.
Proof. unfold Qcopp. cbn. apply Qred_correct. Qed.

Lemma Qc_this_minus (x y : Qc) : (this (x - y) == this x - this y)%Q.
Proof. unfold Qcminus. rewrite Qc_this_plus, Qc_this_opp. reflexivity. Qed.

Ltac qc_lra :=
  try apply Qc_is_canon;
  unfold Qcle, Qclt in *;
  repeat match goal with
  | H : context [this (?x + ?y)] |- _ => rewrite (Qc_this_plus x y) in H
  | H : context [this (?x - ?y)] |- _ => rewrite (Qc_this_minus x y) in H
  | H : context [this (?x * ?y)] |- _ => rewrite (Qc_this_mult x y) in H
  | H : context [this (- ?x)] |- _ => rewrite (Qc_this_opp x) in H
  | |- context [this (?x + ?y)] => rewrite (Qc_this_plus x y)
  | |- context [this (?x - ?y)] => rewrite (Qc_this_minus x y)
  | |- context [this (?x * ?y)] => rewrite (Qc_this_mult x y)
  | |- context [this (- ?x)] => rewrite (Qc_this_opp x)
  end;
  cbn [this Qc_of_Z Q2Qc] in *;
  repeat match goal with
  | H : context [Qred ?x] |- _ => rewrite (Qred_correct x) in H
  | |- context [Qred ?x] => rewrite (Qred_correct x)
  end;
  unfold inject_Z in *;
  lra.

Lemma held_mk (c : Qc) (m : gmap string Z) (h : list string) (o : list line)
    (symbol : string) :
  held {| pf := {| capital := c; positions := m; history := h |}; stdout := o |}
    symbol = default 0%Z (m !! symbol).
Proof. reflexivity. Qed.

(** X1.  A [buy] or [sell] never changes the entry of a symbol other than
    its own: whatever the arguments, and whether the call is accepted,
    rejected or raises, every other key of the positions dict keeps its
    presence and its count. *)
Theorem call_leaves_other_symbols (w : World) (c : Call) (other : string) :
  other ≠ call_symbol c →
  positions (pf (world_of (do_call c w))) !! other = positions (pf w) !! other.
Proof.
  intros Hne. destruct c as [s p q|s p q]; cbn in Hne; cbn [do_call].
  - destruct (Qclt_le_dec (capital (pf w)) (p * Qc_of_Z q)) as [Hlt|Hle].
    + rewrite buy_rejected by exact Hlt. reflexivity.
    + rewrite buy_accepted by exact Hle. cbn.
      apply lookup_insert_ne. congruence.
  - destruct (decide (held w s < q)%Z) as [Hlt|Hge].
    + rewrite sell_rejected by exact Hlt. reflexivity.
    + unfold held in Hge.
      destruct (positions (pf w) !! s) as [v|] eqn:Ev; cbn in Hge.
      * rewrite (sell_accepted w s p q v Ev) by lia. cbn.
        case_bool_decide.
        -- apply lookup_delete_ne. congruence.
        -- apply lookup_insert_ne. congruence.
      * rewrite sell_absent_raises by (exact Ev || lia). reflexivity.
Qed.

Lemma call_leaves_other_symbols_witness :
  positions (pf (world_of (do_call (Sell "X" (Qc_of_Z 100) 1) spent_on_x))) !! "Y"
    = positions (pf spent_on_x) !! "Y".
Proof.
  apply (call_leaves_other_symbols spent_on_x (Sell "X" (Qc_of_Z 100) 1) "Y").
  cbn. discriminate.
Defined.



(** X3.  On integer amounts trading is free of charge: when the cash
    and the price are integers, a returning call on [symbol] at [price]
    leaves cash + price × (shares of [symbol] held) unchanged, whether it
    was accepted or rejected. *)
Theorem trade_conserves_value (w w' : World) (c : Call) (cash p : Z) :
  capital (pf w) = Qc_of_Z cash →
  call_price c = Qc_of_Z p →
  do_call c w = Ok tt w' →
  capital (pf w') + call_price c * Qc_of_Z (held w' (call_symbol c)) =
  Qc_of_Z (cash + p * held w (call_symbol c)).
Proof.
  intros Hcash Hp. rewrite Z2Qc_inj_add, Z2Qc_inj_mul, <- Hcash, <- Hp. clear Hcash Hp.
  destruct c as [s pr q|s pr q]; cbn [do_call call_price call_symbol].
  - destruct (Qclt_le_dec (capital (pf w)) (pr * Qc_of_Z q)) as [Hlt|Hle].
    + rewrite buy_rejected by exact Hlt. intros [= <-]. reflexivity.
    + rewrite buy_accepted by exact Hle. intros [= <-].
      rewrite held_mk, lookup_insert_eq. cbn.
      rewrite Z2Qc_inj_add. ring.
  - destruct (decide (held w s < q)%Z) as [Hlt|Hge].
    + rewrite sell_rejected by exact Hlt. intros [= <-]. reflexivity.
    + unfold held in Hge.
      destruct (positions (pf w) !! s) as [v|] eqn:Ev; cbn in Hge.
      * rewrite (sell_accepted w s pr q v Ev) by lia. intros [= <-].
        rewrite held_mk. unfold held. rewrite Ev. cbn.
        assert (default 0%Z
                  ((if bool_decide (v - q = 0)%Z
                    then delete s (positions (pf w))
                    else <[s:=(v - q)%Z]> (positions (pf w))) !! s)
                = (v - q)%Z) as ->.
        { case_bool_decide as Hz.
          - rewrite lookup_delete_eq. cbn. lia.
          - rewrite lookup_insert_eq. reflexivity. }
        rewrite Z2Qc_inj_sub. ring.
      * rewrite sell_absent_raises by (exact Ev || lia). discriminate.
Qed.

Lemma trade_conserves_value_witness :
  ∃ w', do_call (Sell "X" (Qc_of_Z 110) 1) spent_on_x = Ok tt w' ∧
        capital (pf w') + Qc_of_Z 110 * Qc_of_Z (held w' "X") =
        Qc_of_Z (0 + 110 * held spent_on_x "X").
Proof.
  eexists. split; [vm_compute; reflexivity|].
  apply (trade_conserves_value spent_on_x _ (Sell "X" (Qc_of_Z 110) 1) 0 110).
  - apply Qc_is_canon. reflexivity.
  - reflexivity.
  - vm_compute. reflexivity.
Defined.

(** ** Portfolio: ledger, diagnostics and composition *)

(** X4.  Along a sequence of calls that returns, each call leaves exactly
    one trace: an accepted call appends one entry to the ledger and prints
    nothing, a rejected call prints one diagnostic and leaves the ledger.
    So the ledger and the output only grow at their ends, the ledger by as
    many entries as calls passed their guard, and the two together by the
    number of calls. *)
Theorem each_call_leaves_one_trace (cs : list Call) (w w' : World) :
  do_calls cs w = Ok tt w' →
  ∃ entries diagnostics,
    history (pf w') = history (pf w) ++ entries ∧
    stdout w' = stdout w ++ diagnostics ∧
    length entries = accepted_count cs w ∧
    (length entries + length diagnostics = length cs)%nat.
Proof.
  revert w. induction cs as [|c cs IH]; intros w.
  - cbn. intros [= <-]. exists [], []. rewrite !app_nil_r. repeat split.
  - cbn [do_calls accepted_count]. unfold mbind, M_bind.
    destruct (do_call_cases w c) as [[Ha H]|[[Ha H]|[_ H]]].
    + destruct H as (w1 & e & E & Hh & Ho). rewrite E, Ha. cbn [world_of].
      intros Hrest. destruct (IH w1 Hrest) as (es & ds & Hh' & Ho' & Hn & Hl).
      exists (e :: es), ds. rewrite Hh', Hh, Ho', Ho, <- app_assoc. cbn.
      repeat split; lia.
    + destruct H as (w1 & l & E & Hpf & Ho). rewrite E, Ha. cbn [world_of].
      intros Hrest. destruct (IH w1 Hrest) as (es & ds & Hh' & Ho' & Hn & Hl).
      exists es, (l :: ds). rewrite Hh', Hpf, Ho', Ho, <- app_assoc. cbn.
      repeat split; lia.
    + destruct H as (s & p & q & -> & _ & _ & E). cbn in E |- *. rewrite E.
      discriminate.
Qed.

Lemma each_call_leaves_one_trace_witness :
  ∃ entries diagnostics,
    history (pf (world_of (do_calls [Buy "X" (Qc_of_Z 100) 3; Sell "Y" (Qc_of_Z 5) 1;
                                     Sell "X" (Qc_of_Z 110) 3] (fresh (Qc_of_Z 1000)))))
      = [] ++ entries ∧
    stdout (world_of (do_calls [Buy "X" (Qc_of_Z 100) 3; Sell "Y" (Qc_of_Z 5) 1;
                                Sell "X" (Qc_of_Z 110) 3] (fresh (Qc_of_Z 1000))))
      = [] ++ diagnostics ∧
    length entries = 2%nat ∧
    (length entries + length diagnostics = 3)%nat.
Proof.
  apply (each_call_leaves_one_trace
           [Buy "X" (Qc_of_Z 100) 3; Sell "Y" (Qc_of_Z 5) 1;
            Sell "X" (Qc_of_Z 110) 3] (fresh (Qc_of_Z 1000))).
  vm_compute. reflexivity.
Defined.

(** X5.  Selling shares that are held and buying them back at once at the
    same price, with cash that was not negative, restores the positions
    dict -- the symbol comes back even when the sale had emptied and
    removed its entry -- and appends the SOLD and the BOUGHT entry; when
    the cash and the price are integers, whose arithmetic is exact, the
    cash is restored too. *)
Theorem sell_then_buy_restores (w : World) (symbol : string) (price : Qc)
    (quantity v : Z) :
  0 ≤ capital (pf w) →
  positions (pf w) !! symbol = Some v →
  (quantity ≤ v)%Z →
  ∃ w', (sell symbol price quantity;; buy symbol price quantity) w = Ok tt w' ∧
        positions (pf w') = positions (pf w) ∧
        history (pf w') = history (pf w) ++ [sold_entry symbol price quantity;
                                             bought_entry symbol price quantity] ∧
        (∀ cash p : Z,
           capital (pf w) = Qc_of_Z cash → price = Qc_of_Z p →
           capital (pf w') = Qc_of_Z cash).
Proof.
  intros Hcap Hv Hq. unfold mbind, M_bind.
  rewrite (sell_accepted w symbol price quantity v Hv Hq).
  rewrite buy_accepted by (cbn; qc_lra).
  eexists. split; [reflexivity|]. cbn. split; [|split].
  - rewrite held_mk.
    case_bool_decide as Hz.
    + rewrite lookup_delete_eq. cbn. rewrite insert_delete_eq.
      apply insert_id. rewrite Hv. f_equal. lia.
    + rewrite lookup_insert_eq. cbn. rewrite insert_insert_eq.
      apply insert_id. rewrite Hv. f_equal. lia.
  - rewrite <- app_assoc. reflexivity.
  - intros cash p Hcash _. rewrite <- Hcash. ring.
Qed.

Lemma sell_then_buy_restores_witness :
  ∃ w', (sell "X" (Qc_of_Z 110) 1;; buy "X" (Qc_of_Z 110) 1) spent_on_x = Ok tt w' ∧
        positions (pf w') = positions (pf spent_on_x) ∧
        history (pf w') = history (pf spent_on_x)
                            ++ [sold_entry "X" (Qc_of_Z 110) 1;
                                bought_entry "X" (Qc_of_Z 110) 1] ∧
        capital (pf w') = Qc_of_Z 0.
Proof.
  destruct (sell_then_buy_restores spent_on_x "X" (Qc_of_Z 110) 1 1)
    as (w' & E & Hpos & Hh & Hcash).
  - vm_compute. discriminate.
  - reflexivity.
  - lia.
  - exists w'. split; [exact E|]. split; [exact Hpos|]. split; [exact Hh|].
    apply (Hcash 0%Z 110%Z); [apply Qc_is_canon|]; reflexivity.
Defined.

(** X6.  On integer amounts two accepted buys of the same symbol at the
    same price add up: when the cash and the price are integers and the
    cash covers the first buy and both together, buying [q1] then [q2]
    shares leaves the same cash and the same positions as buying
    [q1 + q2] at once; only the ledger tells them apart, with two entries
    against one. *)
Theorem buys_add_up (w : World) (symbol : string) (cash p q1 q2 : Z) :
  capital (pf w) = Qc_of_Z cash →
  (p * q1 ≤ cash)%Z →
  (p * (q1 + q2) ≤ cash)%Z →
  ∃ w2 w1,
    (buy symbol (Qc_of_Z p) q1;; buy symbol (Qc_of_Z p) q2) w = Ok tt w2 ∧
    buy symbol (Qc_of_Z p) (q1 + q2) w = Ok tt w1 ∧
    capital (pf w2) = Qc_of_Z (cash - p * (q1 + q2)) ∧
    capital (pf w1) = Qc_of_Z (cash - p * (q1 + q2)) ∧
    positions (pf w2) = positions (pf w1) ∧
    length (history (pf w2)) = S (length (history (pf w1))).
Proof.
  intros Hcash H1 H12. unfold mbind, M_bind.
  assert (Qc_of_Z p * Qc_of_Z q1 ≤ capital (pf w)) as H1'
    by (rewrite Hcash, <- Z2Qc_inj_mul; apply (proj1 (Z2Qc_inj_le _ _)); exact H1).
  assert (Qc_of_Z p * Qc_of_Z (q1 + q2) ≤ capital (pf w)) as H12'
    by (rewrite Hcash, <- Z2Qc_inj_mul; apply (proj1 (Z2Qc_inj_le _ _)); exact H12).
  rewrite (buy_accepted w symbol _ q1 H1').
  rewrite buy_accepted;
    [|cbn; rewrite Hcash, <- !Z2Qc_inj_mul, <- Z2Qc_inj_sub;
      apply (proj1 (Z2Qc_inj_le _ _)); lia].
  rewrite buy_accepted by exact H12'.
  eexists _, _. split; [reflexivity|]. split; [reflexivity|]. cbn.
  rewrite Hcash, <- !Z2Qc_inj_mul, <- !Z2Qc_inj_sub.
  split; [f_equal; lia|]. split; [reflexivity|]. split.
  - rewrite held_mk, lookup_insert_eq. cbn.
    rewrite insert_insert_eq. f_equal. lia.
  - rewrite !length_app. cbn. lia.
Qed.

Lemma buys_add_up_witness :
  ∃ w2 w1,
    (buy "X" (Qc_of_Z 100) 2;; buy "X" (Qc_of_Z 100) 3) (fresh (Qc_of_Z 1000))
      = Ok tt w2 ∧
    buy "X" (Qc_of_Z 100) (2 + 3) (fresh (Qc_of_Z 1000)) = Ok tt w1 ∧
    capital (pf w2) = Qc_of_Z (1000 - 100 * (2 + 3)) ∧
    capital (pf w1) = Qc_of_Z (1000 - 100 * (2 + 3)) ∧
    positions (pf w2) = positions (pf w1) ∧
    length (history (pf w2)) = S (length (history (pf w1))).
Proof.
  apply (buys_add_up (fresh (Qc_of_Z 1000)) "X" 1000 100 2 3);
    [reflexivity | lia | lia].
Defined.

(** ** crossover *)

Lemma series_iloc_out (series : list fval) (i : Z) (w : World) :
  ¬ in_bounds series i → series_iloc series i w = Raise IndexError w.
Proof.
  unfold in_bounds, series_iloc. intros Hout. cbn zeta.
  destruct (i <? 0)%Z eqn:Ei;
    [apply Z.ltb_lt in Ei | apply Z.ltb_ge in Ei];
    (destruct ((0 <=? _) && (_ <? _))%Z eqn:E; [|reflexivity]);
    apply andb_true_iff in E as [E1 E2];
    apply Z.leb_le in E1; apply Z.ltb_lt in E2; lia.
Qed.

Lemma series_iloc_in (series : list fval) (i : Z) (w : World) :
  in_bounds series i → ∃ x, series_iloc series i w = Ok x w.
Proof.
  unfold in_bounds, series_iloc. intros Hin. cbn zeta.
  set (j := if (i <? 0)%Z then (Z.of_nat (length series) + i)%Z else i).
  assert (0 ≤ j < Z.of_nat (length series))%Z as Hj.
  { subst j. destruct (i <? 0)%Z eqn:Ei;
      [apply Z.ltb_lt in Ei | apply Z.ltb_ge in Ei]; lia. }
  replace ((0 <=? j) && (j <? Z.of_nat (length series)))%Z with true.
  - destruct (series !! Z.to_nat j) as [x|] eqn:Ex; [eauto|].
    apply lookup_ge_None in Ex. lia.
  - symmetry. apply andb_true_iff. split; [apply Z.leb_le | apply Z.ltb_lt]; lia.
Qed.

Lemma series_iloc_world (series : list fval) (i : Z) (w w' : World) (x : fval) :
  series_iloc series i w = Ok x w' → w' = w ∧ ∀ w0, series_iloc series i w0 = Ok x w0.
Proof.
  unfold series_iloc. cbn zeta.
  destruct ((0 <=? _) && (_ <? _))%Z; [|discriminate].
  destruct (series !! _); [|discriminate].
  intros [= -> ->]. split; reflexivity.
Qed.

Lemma fgt_asym (a b : fval) : fgt a b = true → fgt b a = false.
Proof.
  destruct a as [| | |x], b as [| | |y]; cbn; try reflexivity; try discriminate.
  intros H. apply bool_decide_eq_true_1 in H.
  apply bool_decide_eq_false_2. intros H'.
  exact (Qclt_not_le _ _ H (Qclt_le_weak _ _ H')).
Qed.

(** What a [True] answer of [crossover] means. *)
Lemma crossover_true_inv (series1 series2 : list fval) (i : Z) (w w' : World) :
  crossover series1 series2 i w = Ok true w' →
  i ≠ 0%Z ∧ w' = w ∧
  ∃ a b c d,
    series_iloc series1 i w = Ok a w ∧ series_iloc series2 i w = Ok b w ∧
    series_iloc series1 (i - 1) w = Ok c w ∧
    series_iloc series2 (i - 1) w = Ok d w ∧
    fgt a b = true ∧ fle c d = true.
Proof.
  unfold crossover. case_bool_decide as Hi; [discriminate|].
  unfold mbind, M_bind.
  destruct (series_iloc series1 i w) as [a w1|] eqn:Ea; [|discriminate].
  apply series_iloc_world in Ea as [-> Ea].
  destruct (series_iloc series2 i w) as [b w1|] eqn:Eb; [|discriminate].
  apply series_iloc_world in Eb as [-> Eb].
  destruct (fgt a b) eqn:Eab; [|discriminate].
  destruct (series_iloc series1 (i - 1) w) as [c w1|] eqn:Ec; [|discriminate].
  apply series_iloc_world in Ec as [-> Ec].
  destruct (series_iloc series2 (i - 1) w) as [d w1|] eqn:Ed; [|discriminate].
  apply series_iloc_world in Ed as [-> Ed].
  intros [= Hcd <-]. split; [exact Hi|]. split; [reflexivity|].
  exists a, b, c, d. repeat split; assumption.
Qed.

(** X7.  [crossover] at index 0 answers [False] without reading either
    series, so it does so on empty series too; at any other index that is
    out of bounds for one of the two series it raises [IndexError]. *)
Theorem crossover_at_the_bounds (series1 series2 : list fval) (i : Z) (w : World) :
  crossover series1 series2 0 w = Ok false w ∧
  (i ≠ 0%Z → ¬ in_bounds series1 i ∨ ¬ in_bounds series2 i →
   crossover series1 series2 i w = Raise IndexError w).
Proof.
  split; [reflexivity|]. intros Hi Hout. unfold crossover.
  rewrite bool_decide_eq_false_2 by exact Hi. unfold mbind, M_bind.
  destruct (decide (in_bounds series1 i)) as [Hin1|Hout1].
  - destruct (series_iloc_in series1 i w Hin1) as [a ->].
    destruct Hout as [Hout|Hout]; [contradiction|].
    rewrite series_iloc_out by exact Hout. reflexivity.
  - rewrite series_iloc_out by exact Hout1. reflexivity.
Qed.

Lemma crossover_at_the_bounds_witness :
  crossover [] [] 0 (fresh 0) = Ok false (fresh 0) ∧
  crossover [Fin 1; Fin 1] [Fin 1] 1 (fresh 0) = Raise IndexError (fresh 0).
Proof.
  destruct (crossover_at_the_bounds [Fin 1; Fin 1] [Fin 1] 1 (fresh 0)) as [_ H].
  split; [apply (crossover_at_the_bounds [] [] 1 (fresh 0))|].
  apply H; [lia|]. right. unfold in_bounds. cbn. lia.
Defined.

(** X8.  A crossing goes one way: at no index can [crossover] answer
    [True] for a pair of series and also for the same pair swapped, and it
    never answers [True] for a series against itself. *)
Theorem crossover_goes_one_way (series1 series2 : list fval) (i : Z)
    (w w1 w2 : World) :
  ¬ (crossover series1 series2 i w = Ok true w1 ∧
     crossover series2 series1 i w = Ok true w2) ∧
  crossover series1 series1 i w ≠ Ok true w1.
Proof.
  assert (∀ s1 s2 wa wb,
            crossover s1 s2 i w = Ok true wa →
            crossover s2 s1 i w = Ok true wb → False) as Hno.
  { intros s1 s2 wa wb H12 H21.
    apply crossover_true_inv in H12 as (_ & _ & a & b & c & d & Ea & Eb & _ & _ & Hab & _).
    apply crossover_true_inv in H21 as (_ & _ & b' & a' & c' & d' & Eb' & Ea' & _ & _ & Hba & _).
    rewrite Ea in Ea'. rewrite Eb in Eb'. injection Ea' as <-. injection Eb' as <-.
    apply fgt_asym in Hab. congruence. }
  split.
  - intros [H12 H21]. exact (Hno _ _ _ _ H12 H21).
  - intros H. exact (Hno _ _ _ _ H H).
Qed.

(** X9.  [crossover] never answers [True] when one of the four values it
    compares is NaN: a series still in its warm-up at the bar or at the bar
    before cannot cross. *)
Theorem crossover_false_on_nan (series1 series2 : list fval) (i : Z) (w w' : World) :
  (series_iloc series1 i w = Ok NaN w ∨ series_iloc series2 i w = Ok NaN w ∨
   series_iloc series1 (i - 1) w = Ok NaN w ∨
   series_iloc series2 (i - 1) w = Ok NaN w) →
  crossover series1 series2 i w ≠ Ok true w'.
Proof.
  intros Hnan H.
  apply crossover_true_inv in H as (_ & _ & a & b & c & d & Ea & Eb & Ec & Ed & Hab & Hcd).
  destruct Hnan as [E|[E|[E|E]]].
  - rewrite E in Ea. injection Ea as <-. discriminate.
  - rewrite E in Eb. injection Eb as <-. destruct a; discriminate.
  - rewrite E in Ec. injection Ec as <-. discriminate.
  - rewrite E in Ed. injection Ed as <-. destruct c; discriminate.
Qed.

Lemma crossover_false_on_nan_witness :
  series_iloc [Fin 1; Fin (Qc_of_Z 3)] 0 (fresh 0) = Ok (Fin 1) (fresh 0) ∧
  crossover [Fin 1; Fin (Qc_of_Z 3)] [NaN; Fin (Qc_of_Z 2)] 1 (fresh 0)
    ≠ Ok true (fresh 0).
Proof.
  split; [reflexivity|].
  apply (crossover_false_on_nan [Fin 1; Fin (Qc_of_Z 3)] [NaN; Fin (Qc_of_Z 2)] 1).
  right. right. right. reflexivity.
Defined.

(** ** The rotation, bar by bar *)

Ltac eval_held :=
  repeat match goal with
  | |- context [held ?W ?s] =>
      let v := eval vm_compute in (default 0%Z (positions (pf W) !! s)) in
      change (held W s) with v
  end.

Ltac tidy_store :=
  cbv beta iota; eval_held; cbn [pf capital positions history stdout].

(** Take the next [buy] of the goal down both branches of its guard. *)
Ltac step_buy :=
  match goal with
  | |- context [buy ?s ?p ?q ?W] =>
      destruct (Qclt_le_dec (capital (pf W)) (p * Qc_of_Z q));
      [ rewrite (buy_rejected W s p q) by assumption
      | rewrite (buy_accepted W s p q) by assumption ];
      tidy_store
  end.

(** Take the next [sell] of the goal down the branch its holdings pick. *)
Ltac step_sell :=
  match goal with
  | |- context [sell ?s ?p ?q ?W] =>
      let v := eval vm_compute in (positions (pf W) !! s) in
      lazymatch v with
      | Some ?n => rewrite (sell_accepted W s p q n) by first [reflexivity | lia]
      | None => rewrite (sell_rejected W s p q) by (eval_held; lia)
      end;
      tidy_store
  end.

(** The four calls of a firing bar keep the holdings at nothing or one
    AMD share, whatever the cash and the price. *)
Lemma rotation_calls_holdings (price : Qc) (w : World) :
  flat_or_one_amd w →
  ∃ w', do_calls (rotation_calls price) w = Ok tt w' ∧ flat_or_one_amd w'.
Proof.
  intros Hpos. destruct w as [[c P h] o].
  unfold flat_or_one_amd in Hpos |- *. cbn in Hpos.
  cbn [do_calls do_call rotation_calls]. unfold mbind, M_bind, mret, M_ret.
  destruct Hpos as [-> | ->];
    step_buy; step_sell; step_buy; step_sell;
    (eexists; split; [reflexivity|]; cbn [pf positions];
     first [left; reflexivity | right; reflexivity]).
Qed.

Lemma flat_or_one_amd_no_nvda (w : World) :
  flat_or_one_amd w → positions (pf w) !! "NVDA" = None.
Proof. intros [-> | ->]; reflexivity. Qed.

Lemma ends_in_ok {A} (I : World → Prop) (a : A) (w : World) : I w → ends_in I (Ok a w).
Proof. intros H. split; [exact H | discriminate]. Qed.

Lemma ends_in_value_error {A} (I : World → Prop) (w : World) :
  I w → ends_in I (@Raise A ValueError w).
Proof. intros H. split; [exact H|]. intros e w' [= <- _]. reflexivity. Qed.

Lemma ends_in_bind {A B} (I : World → Prop) (m : M A) (k : A → M B) (w : World) :
  ends_in I (m w) → (∀ a w1, m w = Ok a w1 → ends_in I (k a w1)) →
  ends_in I ((m ≫= k) w).
Proof.
  intros Hm Hk. unfold mbind, M_bind.
  destruct (m w) as [a w1|e w1] eqn:E; [apply (Hk a w1 eq_refl)|].
  destruct Hm as [HI He]. split; [exact HI|].
  intros e' w' [= <- _]. exact (He e w1 eq_refl).
Qed.

(** A loop whose every iteration keeps [I], however it ends, keeps [I]. *)
Lemma for_each_ends_in {A} (I : World → Prop) (xs : list A) (body : A → M unit) :
  (∀ x w, x ∈ xs → I w → ends_in I (body x w)) →
  ∀ w, I w → ends_in I (for_each xs body w).
Proof.
  induction xs as [|x xs IH]; intros Hbody w Hw; [apply ends_in_ok, Hw|].
  cbn [for_each]. apply ends_in_bind; [apply Hbody; [left | exact Hw]|].
  intros [] w1 E. apply IH.
  - intros y w' Hy. apply Hbody. right. exact Hy.
  - destruct (Hbody x w) as [H1 _]; [left | exact Hw|]. rewrite E in H1. exact H1.
Qed.

Lemma ends_in_print (I : World → Prop) (s : string) (w : World) :
  (∀ o, I {| pf := pf w; stdout := o |}) → ends_in I (print s w).
Proof. intros H. apply ends_in_ok, H. Qed.

Section Frames.
Variable ta : Indicators.

Lemma execute_unfold (data : list (string * option (list Bar))) (w : World) :
  execute ta data w =
    for_each data (λ '(symbol, df),
      match df with
      | None | Some [] => print ("Skipping " +:+ symbol +:+ " due to no data.")
      | Some rows => on_frame ta rows
      end) w.
Proof. reflexivity. Qed.

Lemma on_frame_cases (rows : list Bar) (w : World) :
  (some_column_misfits ta rows ∧ on_frame ta rows w = Raise ValueError w) ∨
  (¬ some_column_misfits ta rows ∧
   on_frame ta rows w = for_each (seq 1 (length rows - 1)) (bar_at ta rows) w).
Proof.
  unfold on_frame, some_column_misfits, assign_column, mbind, M_bind.
  destruct (ta_rsi_fits ta _ 14); [|left; auto].
  destruct (ta_sma_fits ta _ 50); [|left; auto].
  destruct (ta_sma_fits ta _ 200); [|left; auto].
  destruct (ta_zscore_fits ta _ 20); [|left; auto].
  right. split; [|reflexivity]. intros [H|[H|[H|H]]]; discriminate.
Qed.

Lemma bar_at_holdings (df : list Bar) (i : nat) (w : World) :
  i ∈ seq 1 (length df - 1) → flat_or_one_amd w →
  ∃ w', bar_at ta df i w = Ok tt w' ∧ flat_or_one_amd w' ∧
        (fgt (ta_zscore ta (close <$> df) 20 i) (Fin 1) = false → w' = w).
Proof.
  intros Hi Hpos. destruct (loop_index_in_range df i Hi) as [_ [row Hrow]].
  rewrite (bar_at_calls ta df i row w Hrow).
  destruct (fgt _ _).
  - destruct (rotation_calls_holdings (close row) w Hpos) as (w' & E & Hpos').
    exists w'. split; [exact E|]. split; [exact Hpos' | discriminate].
  - exists w. auto.
Qed.

Lemma on_frame_ends_in (I : World → Prop) (rows : list Bar) (w : World) :
  (∀ i w0, i ∈ seq 1 (length rows - 1) → I w0 →
     ∃ w1, bar_at ta rows i w0 = Ok tt w1 ∧ I w1) →
  I w → ends_in I (on_frame ta rows w).
Proof.
  intros Hbar Hw. destruct (on_frame_cases rows w) as [[_ ->]|[_ ->]].
  - apply ends_in_value_error, Hw.
  - apply for_each_ends_in; [|exact Hw]. intros i w0 Hi Hw0.
    destruct (Hbar i w0 Hi Hw0) as (w1 & -> & Hw1). apply ends_in_ok, Hw1.
Qed.

Lemma execute_ends_in (I : World → Prop)
    (data : list (string * option (list Bar))) (w : World) :
  (∀ w0 o, I w0 → I {| pf := pf w0; stdout := o |}) →
  (∀ symbol rows i w0, (symbol, Some rows) ∈ data →
     i ∈ seq 1 (length rows - 1) → I w0 →
     ∃ w1, bar_at ta rows i w0 = Ok tt w1 ∧ I w1) →
  I w → ends_in I (execute ta data w).
Proof.
  intros Hout Hbar Hw. rewrite execute_unfold.
  apply for_each_ends_in; [|exact Hw].
  intros [symbol df] w0 Hin Hw0.
  destruct df as [[|b rows]|];
    [apply ends_in_print; intros o; apply Hout, Hw0
    | | apply ends_in_print; intros o; apply Hout, Hw0].
  apply on_frame_ends_in; [|exact Hw0].
  intros i w1 Hi Hw1. exact (Hbar symbol _ i w1 Hin Hi Hw1).
Qed.

Lemma execute_no_bars (data : list (string * option (list Bar))) (w : World) :
  no_bars data →
  execute ta data w =
    Ok tt {| pf := pf w; stdout := stdout w ++ skip_lines data |}.
Proof.
  rewrite execute_unfold. revert w.
  induction data as [|[symbol df] data IH]; intros w Hnone.
  - cbn. rewrite app_nil_r. destruct w; reflexivity.
  - assert (no_bars data) as Hrest.
    { intros s rows Hin. apply (Hnone s rows). right. exact Hin. }
    cbn [for_each]. unfold mbind, M_bind.
    destruct df as [[|b rows]|].
    + cbn. rewrite IH by exact Hrest. cbn. rewrite <- app_assoc. reflexivity.
    + assert (b :: rows = []) as H by (apply (Hnone symbol); left). discriminate.
    + cbn. rewrite IH by exact Hrest. cbn. rewrite <- app_assoc. reflexivity.
Qed.

Lemma for_each_app {A} (xs ys : list A) (body : A → M unit) (w : World) :
  for_each (xs ++ ys) body w = (for_each xs body;; for_each ys body) w.
Proof.
  revert w. induction xs as [|x xs IH]; intros w; [reflexivity|].
  cbn [app for_each]. unfold mbind, M_bind in *.
  destruct (body x w) as [[] w1|e w1]; [apply IH | reflexivity].
Qed.

End Frames.
(** ** The rotation as a whole *)

(** X10.  A frame that is missing or empty costs its symbol one "Skipping"
    line and nothing else: when no frame has a bar, [execute] returns
    with the portfolio untouched and exactly the skip lines printed, in
    iteration order, whatever the indicator library would do. *)
Theorem execute_needs_two_bars (ta : Indicators)
    (data : list (string * option (list Bar))) (w : World) :
  no_bars data →
  execute ta data w =
    Ok tt {| pf := pf w; stdout := stdout w ++ skip_lines data |}.
Proof. apply execute_no_bars. Qed.

Lemma execute_needs_two_bars_witness :
  execute windowed_indicators [("AMD", Some []); ("INTC", None)]
    (fresh (Qc_of_Z 12000)) =
  Ok tt {| pf := pf (fresh (Qc_of_Z 12000));
           stdout := [] ++ [Txt "Skipping AMD due to no data.";
                            Txt "Skipping INTC due to no data."] |}.
Proof.
  apply (execute_needs_two_bars windowed_indicators
           [("AMD", Some []); ("INTC", None)] (fresh (Qc_of_Z 12000))).
  intros symbol rows Hin.
  apply elem_of_cons in Hin as [[= -> ->]|Hin]; [reflexivity|].
  apply elem_of_cons in Hin as [[=]|Hin].
  apply elem_of_nil in Hin. destruct Hin.
Defined.

Lemma rotation_calls_pre (price : Qc) :
  0 ≤ price → Forall call_pre (rotation_calls price).
Proof. intros Hp. repeat constructor; cbn; auto; lia. Qed.

(** X11.  On any frames whose closes are all non-negative, [execute]
    keeps a sound portfolio sound however it ends: whether it returns or
    a column assignment raises [ValueError] (it raises nothing else), cash
    that was not negative is not negative afterwards and held counts that
    were all at least 1 still are, whatever was held at the start. *)
Theorem execute_keeps_portfolio_sound (ta : Indicators)
    (data : list (string * option (list Bar))) (w : World) :
  closes_nonneg data →
  0 ≤ capital (pf w) →
  positions_ok w →
  ends_in (λ w', 0 ≤ capital (pf w') ∧ positions_ok w') (execute ta data w).
Proof.
  intros Hnn Hc Hok. apply execute_ends_in; [auto | | auto].
  intros symbol rows i w0 Hin Hi [Hc0 Hok0].
  destruct (loop_index_in_range _ i Hi) as [_ [row Hrow]].
  rewrite (bar_at_calls ta _ i row w0 Hrow).
  destruct (fgt _ _); [|exists w0; auto].
  assert (0 ≤ close row) as Hp.
  { apply (Hnn symbol rows row Hin). apply list_elem_of_lookup. eauto. }
  destruct (do_calls_inv (rotation_calls (close row)) w0
              (rotation_calls_pre _ Hp) Hok0) as (w1 & E & Hok1 & Hc1).
  exists w1. auto.
Qed.

Lemma execute_keeps_portfolio_sound_witness :
  ends_in (λ w', 0 ≤ capital (pf w') ∧ positions_ok w')
    (execute warmup_indicators [("NVDA", Some two_bars)] (fresh (Qc_of_Z 12000))).
Proof.
  apply (execute_keeps_portfolio_sound warmup_indicators
           [("NVDA", Some two_bars)] (fresh (Qc_of_Z 12000))).
  - intros symbol rows row Hin Hrow.
    apply elem_of_cons in Hin as [[= -> ->]|Hin]; [|apply elem_of_nil in Hin; destruct Hin].
    apply elem_of_cons in Hrow as [->|Hrow]; [vm_compute; discriminate|].
    apply elem_of_cons in Hrow as [->|Hrow]; [vm_compute; discriminate|].
    apply elem_of_nil in Hrow. destruct Hrow.
  - vm_compute. discriminate.
  - apply fresh_positions_ok.
Defined.

(** X12.  One iteration of the bar loop on a portfolio that holds nothing
    or exactly one share of AMD, whatever the cash, the close and the
    indicator values: it returns, the portfolio again holds nothing or
    exactly one share of AMD, NVDA is not held at the end of the bar even
    when it was bought in it, and when the z-score is not above 1 nothing
    at all has changed. *)
Theorem bar_buys_one_amd_or_nothing (ta : Indicators) (df : list Bar) (i : nat)
    (w : World) :
  i ∈ seq 1 (length df - 1) →
  flat_or_one_amd w →
  ∃ w', bar_at ta df i w = Ok tt w' ∧
        flat_or_one_amd w' ∧
        positions (pf w') !! "NVDA" = None ∧
        (fgt (ta_zscore ta (close <$> df) 20 i) (Fin 1) = false → w' = w).
Proof.
  intros Hi Hpos.
  destruct (bar_at_holdings ta df i w Hi Hpos) as (w' & E & Hpos' & Hsame).
  exists w'. split; [exact E|]. split; [exact Hpos'|].
  split; [apply flat_or_one_amd_no_nvda, Hpos' | exact Hsame].
Qed.

Lemma bar_buys_one_amd_or_nothing_witness :
  ∃ w', bar_at warmup_indicators two_bars 1 (fresh (Qc_of_Z 12000)) = Ok tt w' ∧
        flat_or_one_amd w' ∧
        positions (pf w') !! "NVDA" = None ∧
        (fgt (ta_zscore warmup_indicators (close <$> two_bars) 20 1) (Fin 1) = false →
         w' = fresh (Qc_of_Z 12000)).
Proof.
  apply (bar_buys_one_amd_or_nothing warmup_indicators two_bars 1
           (fresh (Qc_of_Z 12000))).
  - apply elem_of_seq. simpl. lia.
  - left. reflexivity.
Defined.

(** X13.  The rotation never builds a position.  From a portfolio that
    holds nothing or exactly one share of AMD, whatever the frames and the
    indicators, [execute] ends -- returning, or raising [ValueError] at a
    column assignment, the only exception it raises -- with a portfolio
    that holds nothing or exactly one share of AMD, and no NVDA. *)
Theorem rotation_buys_at_most_one_share (ta : Indicators)
    (data : list (string * option (list Bar))) (w : World) :
  flat_or_one_amd w →
  ends_in (λ w', flat_or_one_amd w' ∧ positions (pf w') !! "NVDA" = None)
    (execute ta data w).
Proof.
  intros Hpos.
  assert (ends_in flat_or_one_amd (execute ta data w)) as [HI He].
  { apply execute_ends_in; [auto | | exact Hpos].
    intros symbol rows i w0 _ Hi Hw0.
    destruct (bar_at_holdings ta rows i w0 Hi Hw0) as (w1 & E & H1 & _). eauto. }
  split; [|exact He]. split; [exact HI | apply flat_or_one_amd_no_nvda, HI].
Qed.

Lemma rotation_buys_at_most_one_share_witness :
  ends_in (λ w', flat_or_one_amd w' ∧ positions (pf w') !! "NVDA" = None)
    (execute warmup_indicators [("NVDA", Some two_bars); ("AMD", Some two_bars)]
       (fresh (Qc_of_Z 12000))).
Proof.
  apply (rotation_buys_at_most_one_share warmup_indicators
           [("NVDA", Some two_bars); ("AMD", Some two_bars)] (fresh (Qc_of_Z 12000))).
  left. reflexivity.
Defined.

(** X20.  A frame with bars on which one of the four indicator columns
    cannot be assigned stops [execute] with [ValueError] before any bar of
    that frame is traded: the portfolio and the output are as the frames
    before it left them, and the frames after it are never looked at. *)
Theorem misfit_frame_stops_execute (ta : Indicators)
    (before after : list (string * option (list Bar)))
    (symbol : string) (b : Bar) (rows : list Bar) (w w1 : World) :
  execute ta before w = Ok tt w1 →
  some_column_misfits ta (b :: rows) →
  execute ta (before ++ (symbol, Some (b :: rows)) :: after) w = Raise ValueError w1.
Proof.
  intros Ebefore Hmis. rewrite execute_unfold, for_each_app.
  unfold mbind, M_bind. rewrite <- execute_unfold, Ebefore.
  cbn [for_each]. unfold mbind, M_bind.
  destruct (on_frame_cases ta (b :: rows) w1) as [[_ ->]|[Hno _]];
    [reflexivity | contradiction].
Qed.

Lemma misfit_frame_stops_execute_witness :
  execute windowed_indicators
    ([("INTC", None)] ++ ("NVDA", Some two_bars) :: [("AMD", Some two_bars)])
    (fresh (Qc_of_Z 12000)) =
  Raise ValueError
    {| pf := pf (fresh (Qc_of_Z 12000));
       stdout := [Txt "Skipping INTC due to no data."] |}.
Proof.
  apply (misfit_frame_stops_execute windowed_indicators [("INTC", None)]
           [("AMD", Some two_bars)] "NVDA"
           {| close := Qc_of_Z 10; volume := 1000 |}
           [ {| close := Qc_of_Z 10; volume := 1200 |} ]).
  - reflexivity.
  - left. reflexivity.
Defined.

(** ** Output is write-only *)

Lemma oblivious_bind {A B} (m : M A) (k : A → M B) :
  oblivious m → (∀ a, oblivious (k a)) → oblivious (m ≫= k).
Proof.
  intros Hm Hk w. unfold mbind, M_bind.
  pose proof (Hm w) as (ls1 & Hs1 & Ho1).
  destruct (m w) as [a w1|e w1] eqn:E; cbn in Hs1, Ho1.
  - pose proof (Hk a w1) as (ls2 & Hs2 & Ho2).
    exists (ls1 ++ ls2). split.
    + rewrite Hs2, Hs1, app_assoc. reflexivity.
    + intros o. rewrite Ho1, Ho2, app_assoc. reflexivity.
  - exists ls1. split; [exact Hs1|]. intros o. rewrite Ho1. reflexivity.
Qed.

Ltac obl_nil :=
  exists []; split;
  [rewrite app_nil_r; reflexivity | intros ?; rewrite app_nil_r; reflexivity].

Lemma oblivious_ret {A} (a : A) : oblivious (mret a).
Proof. intros w. obl_nil. Qed.

Lemma oblivious_emit (l : line) : oblivious (emit l).
Proof. intros w. exists [l]. split; [reflexivity|]. intros o. reflexivity. Qed.

Lemma oblivious_print (s : string) : oblivious (print s).
Proof. apply oblivious_emit. Qed.

Lemma oblivious_get_capital : oblivious get_capital.
Proof. intros w. obl_nil. Qed.

Lemma oblivious_set_capital (c : Qc) : oblivious (set_capital c).
Proof. intros w. obl_nil. Qed.

Lemma oblivious_positions_get (k : string) (d : Z) : oblivious (positions_get k d).
Proof. intros w. obl_nil. Qed.

Lemma oblivious_positions_getitem (k : string) : oblivious (positions_getitem k).
Proof.
  intros w. unfold positions_getitem. cbn.
  destruct (positions (pf w) !! k); obl_nil.
Qed.

Lemma oblivious_positions_setitem (k : string) (v : Z) :
  oblivious (positions_setitem k v).
Proof. intros w. obl_nil. Qed.

Lemma oblivious_positions_delitem (k : string) : oblivious (positions_delitem k).
Proof.
  intros w. unfold positions_delitem. cbn.
  destruct (positions (pf w) !! k); obl_nil.
Qed.

Lemma oblivious_get_history : oblivious get_history.
Proof. intros w. obl_nil. Qed.

Lemma oblivious_history_append (s : string) : oblivious (history_append s).
Proof. intros w. obl_nil. Qed.

Lemma oblivious_assign_column (fits : bool) : oblivious (assign_column fits).
Proof. intros w. unfold assign_column. destruct fits; obl_nil. Qed.

Lemma oblivious_iloc (df : list Bar) (i : nat) : oblivious (iloc df i).
Proof. intros w. unfold iloc. destruct (df !! i); obl_nil. Qed.

Create HintDb oblivious.
#[local] Hint Resolve oblivious_ret oblivious_emit oblivious_print
  oblivious_get_capital oblivious_set_capital oblivious_positions_get
  oblivious_positions_getitem oblivious_positions_setitem
  oblivious_positions_delitem oblivious_get_history
  oblivious_history_append oblivious_assign_column oblivious_iloc : oblivious.

Ltac oblivious_steps :=
  repeat first
    [ solve [auto with oblivious]
    | case_bool_decide
    | apply oblivious_bind; [|intros ?] ].

Lemma oblivious_buy (symbol : string) (price : Qc) (quantity : Z) :
  oblivious (buy symbol price quantity).
Proof. unfold buy. cbn zeta. oblivious_steps. Qed.

Lemma oblivious_sell (symbol : string) (price : Qc) (quantity : Z) :
  oblivious (sell symbol price quantity).
Proof. unfold sell. oblivious_steps. Qed.

#[local] Hint Resolve oblivious_buy oblivious_sell : oblivious.

Lemma oblivious_for_each {A} (xs : list A) (body : A → M unit) :
  (∀ x, oblivious (body x)) → oblivious (for_each xs body).
Proof.
  intros Hbody. induction xs as [|x xs IH]; cbn [for_each].
  - apply oblivious_ret.
  - apply oblivious_bind; [apply Hbody | intros _; exact IH].
Qed.

Lemma oblivious_bar_body (price : Qc) (volume : Z) (rsi sma50 sma200 zscore : fval) :
  oblivious (bar_body price volume rsi sma50 sma200 zscore).
Proof.
  unfold bar_body.
  destruct (rotation_cond rsi sma50 sma200 zscore); cbv beta iota; oblivious_steps.
Qed.

Lemma oblivious_execute (ta : Indicators) (data : list (string * option (list Bar))) :
  oblivious (execute ta data).
Proof.
  unfold execute. apply oblivious_for_each. intros [symbol df].
  destruct df as [[|b rows]|]; try apply oblivious_print.
  cbn zeta. repeat (apply oblivious_bind; [apply oblivious_assign_column | intros _]).
  apply oblivious_for_each. intros i. unfold bar_at.
  apply oblivious_bind; [apply oblivious_iloc | intros row].
  apply oblivious_bar_body.
Qed.

(** X14.  Trading never reads what was printed.  Whether it returns or
    raises, [execute] has only appended lines to the output, and started
    on the same portfolio with any other output so far it ends the same
    way, with the same portfolio, having appended the same lines. *)
Theorem execute_ignores_earlier_output (ta : Indicators)
    (data : list (string * option (list Bar))) (w : World) :
  ∃ ls,
    stdout (world_of (execute ta data w)) = stdout w ++ ls ∧
    ∀ o, execute ta data {| pf := pf w; stdout := o |} =
           set_world (execute ta data w)
             {| pf := pf (world_of (execute ta data w)); stdout := o ++ ls |}.
Proof. apply oblivious_execute. Qed.

Lemma run_report_aux (ta : Indicators)
    (data : list (string * option (list Bar))) (w : World) :
  ∃ ls,
    stdout (world_of (execute ta data w)) = stdout w ++ ls ∧
    match execute ta data w with
    | Ok _ w1 =>
        ∃ w', run ta data w = Ok tt w' ∧
              pf w' = pf w1 ∧
              stdout w' =
                stdout w
                  ++ [Txt "--- Starting Backtest ---";
                      Txt ("Initial Capital: $" +:+ fmt_2f (capital (pf w)) +:+ nl)]
                  ++ ls
                  ++ [Txt (nl +:+ "--- Backtest Finished ---"); Txt "Trade History:"]
                  ++ trade_lines (history (pf w1))
                  ++ [Txt (nl +:+ "Final Portfolio:");
                      Txt ("Capital: $" +:+ fmt_2f (capital (pf w1)));
                      PositionsLine (positions (pf w1))]
    | Raise e w1 =>
        run ta data w =
          Raise e {| pf := pf w1;
                     stdout :=
                       stdout w
                         ++ [Txt "--- Starting Backtest ---";
                             Txt ("Initial Capital: $"
                                    +:+ fmt_2f (capital (pf w)) +:+ nl)]
                         ++ ls |}
    end.
Proof.
  destruct (oblivious_execute ta data w) as (ls & Hs & Ho).
  exists ls. split; [exact Hs|].
  unfold run, mbind, M_bind. cbn. rewrite Ho.
  destruct (execute ta data w) as [[] w1|e w1]; cbn.
  - destruct (history (pf w1)) as [|e h] eqn:Eh.
    + cbn. eexists. split; [reflexivity|]. split; [reflexivity|].
      cbn. rewrite <- !app_assoc. reflexivity.
    + rewrite for_each_print. cbn. eexists. split; [reflexivity|].
      split; [reflexivity|]. cbn. rewrite <- !app_assoc. reflexivity.
  - rewrite <- !app_assoc. reflexivity.
Qed.

(** X15.  The shape of the whole report.  [Backtest.run] prints the
    banner and the initial capital and then runs [execute].  If [execute]
    returns, [run] returns, having printed after the lines of [execute]
    the closing banner, the ledger under "Trade History:" and the final
    capital and positions, and the portfolio is the one [execute] left.
    If [execute] raises, [run] raises the same exception with that
    portfolio and no report after the lines of [execute]. *)
Theorem run_is_execute_between_banners (ta : Indicators)
    (data : list (string * option (list Bar))) (w : World) :
  ∃ ls,
    stdout (world_of (execute ta data w)) = stdout w ++ ls ∧
    match execute ta data w with
    | Ok _ w1 =>
        ∃ w', run ta data w = Ok tt w' ∧
              pf w' = pf w1 ∧
              stdout w' =
                stdout w
                  ++ [Txt "--- Starting Backtest ---";
                      Txt ("Initial Capital: $" +:+ fmt_2f (capital (pf w)) +:+ nl)]
                  ++ ls
                  ++ [Txt (nl +:+ "--- Backtest Finished ---"); Txt "Trade History:"]
                  ++ trade_lines (history (pf w1))
                  ++ [Txt (nl +:+ "Final Portfolio:");
                      Txt ("Capital: $" +:+ fmt_2f (capital (pf w1)));
                      PositionsLine (positions (pf w1))]
    | Raise e w1 =>
        run ta data w =
          Raise e {| pf := pf w1;
                     stdout :=
                       stdout w
                         ++ [Txt "--- Starting Backtest ---";
                             Txt ("Initial Capital: $"
                                    +:+ fmt_2f (capital (pf w)) +:+ nl)]
                         ++ ls |}
    end.
Proof. apply run_report_aux. Qed.

Lemma run_short_aux (ta : Indicators)
    (data : list (string * option (list Bar))) (w : World) :
  no_bars data →
  ∃ w',
    run ta data w = Ok tt w' ∧
    pf w' = pf w ∧
    stdout w' =
      stdout w
        ++ [Txt "--- Starting Backtest ---";
            Txt ("Initial Capital: $" +:+ fmt_2f (capital (pf w)) +:+ nl)]
        ++ skip_lines data
        ++ [Txt (nl +:+ "--- Backtest Finished ---"); Txt "Trade History:"]
        ++ trade_lines (history (pf w))
        ++ [Txt (nl +:+ "Final Portfolio:");
            Txt ("Capital: $" +:+ fmt_2f (capital (pf w)));
            PositionsLine (positions (pf w))].
Proof.
  intros Hnone.
  unfold run, mbind, M_bind. cbn.
  rewrite (execute_no_bars ta data _ Hnone). cbn.
  destruct (history (pf w)) as [|e h] eqn:Eh.
  - cbn. eexists. split; [reflexivity|]. cbn. split; [destruct w as [[]]; cbn in *; congruence|].
    rewrite <- !app_assoc. reflexivity.
  - rewrite for_each_print. cbn. eexists. split; [reflexivity|]. cbn.
    split; [destruct w as [[]]; cbn in *; congruence|].
    rewrite <- !app_assoc. reflexivity.
Qed.

(** X16.  With no bar to trade on -- no frame at all, or only frames that
    are missing or empty -- the run completes whatever the indicator
    library would do: it leaves the portfolio as it was and prints the two
    banners around the skip lines, the ledger as it stood ("No trades
    were executed." when it is empty), and the unchanged capital and
    positions. *)
Theorem run_without_two_bars_reports_no_change (ta : Indicators)
    (data : list (string * option (list Bar))) (w : World) :
  no_bars data →
  ∃ w',
    run ta data w = Ok tt w' ∧
    pf w' = pf w ∧
    stdout w' =
      stdout w
        ++ [Txt "--- Starting Backtest ---";
            Txt ("Initial Capital: $" +:+ fmt_2f (capital (pf w)) +:+ nl)]
        ++ skip_lines data
        ++ [Txt (nl +:+ "--- Backtest Finished ---"); Txt "Trade History:"]
        ++ trade_lines (history (pf w))
        ++ [Txt (nl +:+ "Final Portfolio:");
            Txt ("Capital: $" +:+ fmt_2f (capital (pf w)));
            PositionsLine (positions (pf w))].
Proof. apply run_short_aux. Qed.

Lemma run_without_two_bars_reports_no_change_witness :
  ∃ w',
    run windowed_indicators [("NVDA", None); ("AMD", Some [])] (fresh (Qc_of_Z 12000))
      = Ok tt w' ∧
    pf w' = pf (fresh (Qc_of_Z 12000)) ∧
    stdout w' =
      [] ++ [Txt "--- Starting Backtest ---";
             Txt ("Initial Capital: $" +:+ "12000.00" +:+ nl)]
         ++ [Txt "Skipping NVDA due to no data."; Txt "Skipping AMD due to no data."]
         ++ [Txt (nl +:+ "--- Backtest Finished ---"); Txt "Trade History:"]
         ++ [Txt "No trades were executed."]
         ++ [Txt (nl +:+ "Final Portfolio:");
             Txt ("Capital: $" +:+ "12000.00");
             PositionsLine ∅].
Proof.
  apply (run_without_two_bars_reports_no_change windowed_indicators
           [("NVDA", None); ("AMD", Some [])] (fresh (Qc_of_Z 12000))).
  intros symbol rows Hin.
  apply elem_of_cons in Hin as [[=]|Hin].
  apply elem_of_cons in Hin as [[= -> ->]|Hin]; [reflexivity|].
  apply elem_of_nil in Hin. destruct Hin.
Defined.

(** ** Fetching and the main block *)

Section Dict.
Context {V : Type}.
Implicit Types (d : list (string * V)) (k : string) (v : V).

Lemma dict_get_set_eq k v d : dict_get k (dict_set k v d) = Some v.
Proof.
  induction d as [|[k' v'] d IH]; cbn.
  - rewrite decide_True by reflexivity. reflexivity.
  - destruct (decide (k' = k)) as [->|Hne]; cbn.
    + rewrite decide_True by reflexivity. reflexivity.
    + rewrite decide_False by exact Hne. exact IH.
Qed.

Lemma dict_get_set_ne k k0 v d : k0 ≠ k → dict_get k0 (dict_set k v d) = dict_get k0 d.
Proof.
  intros Hne. induction d as [|[k' v'] d IH]; cbn.
  - rewrite decide_False by congruence. reflexivity.
  - destruct (decide (k' = k)) as [->|Hne']; cbn.
    + rewrite !decide_False by congruence. reflexivity.
    + destruct (decide (k' = k0)); [reflexivity | exact IH].
Qed.

Lemma dict_set_keys k v d :
  (dict_set k v d).*1 = if decide (k ∈ d.*1) then d.*1 else d.*1 ++ [k].
Proof.
  induction d as [|[k' v'] d IH]; cbn.
  - rewrite decide_False by apply not_elem_of_nil. reflexivity.
  - destruct (decide (k' = k)) as [->|Hne]; cbn.
    + rewrite decide_True by left. reflexivity.
    + rewrite IH. destruct (decide (k ∈ d.*1)) as [Hin|Hout].
      * rewrite decide_True by (right; exact Hin). reflexivity.
      * rewrite decide_False; [reflexivity|].
        intros Hin. apply elem_of_cons in Hin as [->|Hin]; [congruence|auto].
Qed.

Lemma dict_set_nodup k v d : NoDup d.*1 → NoDup (dict_set k v d).*1.
Proof.
  intros Hd. rewrite dict_set_keys. case_decide as Hin; [exact Hd|].
  apply list.NoDup_app. split; [exact Hd|].
  split; [|apply list.NoDup_singleton].
  intros x Hx Hx'. apply list_elem_of_singleton in Hx' as ->. auto.
Qed.

Lemma dict_set_fresh k v d : k ∉ d.*1 → dict_set k v d = d ++ [(k, v)].
Proof.
  induction d as [|[k' v'] d IH]; cbn; intros Hout; [reflexivity|].
  rewrite decide_False by (intros ->; apply Hout; left).
  f_equal. apply IH. intros Hin. apply Hout. right. exact Hin.
Qed.

Lemma elem_of_dict_set k v d (x : string * V) :
  x ∈ dict_set k v d → x = (k, v) ∨ x ∈ d.
Proof.
  induction d as [|[k' v'] d IH]; cbn.
  - intros Hx. apply list_elem_of_singleton in Hx. auto.
  - destruct (decide (k' = k)) as [->|Hne]; intros Hx;
      apply elem_of_cons in Hx as [->|Hx]; auto.
    + right. right. exact Hx.
    + right. left.
    + destruct (IH Hx) as [->|Hin]; [auto | right; right; exact Hin].
Qed.

End Dict.

Section Fetch_loop.
Variable hist : gmap string (list Bar).

Let step (data : list (string * list Bar)) (symbol : string) :=
  match hist !! symbol with
  | Some df => dict_set symbol df data
  | None => data
  end.

Lemma fetch_from_get (symbols : list string) : ∀ acc s,
  dict_get s (foldl step acc symbols) =
    if decide (s ∈ symbols)
    then match hist !! s with Some df => Some df | None => dict_get s acc end
    else dict_get s acc.
Proof.
  induction symbols as [|k symbols IH]; intros acc s; cbn [foldl].
  - rewrite decide_False by apply not_elem_of_nil. reflexivity.
  - rewrite IH. unfold step.
    destruct (decide (s ∈ symbols)) as [Hin|Hout].
    + rewrite decide_True by (right; exact Hin).
      destruct (hist !! s) as [df|] eqn:Es; [reflexivity|].
      destruct (hist !! k) as [dk|] eqn:Ek; [|reflexivity].
      apply dict_get_set_ne. congruence.
    + destruct (decide (s = k)) as [->|Hne].
      * rewrite decide_True by left.
        destruct (hist !! k) as [dk|]; [apply dict_get_set_eq | reflexivity].
      * rewrite decide_False
          by (intros H; apply elem_of_cons in H as [->|H]; [congruence | auto]).
        destruct (hist !! k) as [dk|]; [|reflexivity].
        apply dict_get_set_ne. exact Hne.
Qed.

Lemma fetch_from_nodup (symbols : list string) : ∀ acc,
  NoDup acc.*1 → NoDup (foldl step acc symbols).*1.
Proof.
  induction symbols as [|k symbols IH]; intros acc Hacc; cbn [foldl]; [exact Hacc|].
  apply IH. unfold step. destruct (hist !! k); [apply dict_set_nodup|]; exact Hacc.
Qed.

Lemma fetch_from_elem (symbols : list string) : ∀ acc s df,
  (∀ s0 df0, (s0, df0) ∈ acc → hist !! s0 = Some df0) →
  (s, df) ∈ foldl step acc symbols → hist !! s = Some df.
Proof.
  induction symbols as [|k symbols IH]; intros acc s df Hacc; cbn [foldl];
    [apply Hacc|].
  apply IH. intros s0 df0. unfold step.
  destruct (hist !! k) as [dk|] eqn:Ek; [|apply Hacc].
  intros Hin. apply elem_of_dict_set in Hin as [[= -> ->]|Hin]; [exact Ek | auto].
Qed.

Lemma fetch_from_ordered (symbols : list string) : ∀ acc,
  NoDup symbols → (∀ s, s ∈ symbols → s ∉ acc.*1) →
  foldl step acc symbols =
    acc ++ omap (λ s, (λ df, (s, df)) <$> hist !! s) symbols.
Proof.
  induction symbols as [|k symbols IH]; intros acc Hnd Hfresh; cbn [foldl omap].
  - rewrite app_nil_r. reflexivity.
  - apply list.NoDup_cons in Hnd as [Hk Hnd].
    unfold step at 2. cbn. destruct (hist !! k) as [dk|] eqn:Ek; cbn.
    + rewrite dict_set_fresh by (apply Hfresh; left).
      rewrite IH; [rewrite <- app_assoc; reflexivity | exact Hnd |].
      intros s Hs. rewrite fmap_app. cbn. intros Hin.
      apply elem_of_app in Hin as [Hin|Hin].
      * apply (Hfresh s); [right; exact Hs | exact Hin].
      * apply list_elem_of_singleton in Hin as ->. auto.
    + apply IH; [exact Hnd|]. intros s Hs. apply Hfresh. right. exact Hs.
Qed.

End Fetch_loop.

(** X17.  What a successful fetch returns.  When the provider returns a
    frame, [_fetch_data] prints nothing and returns a dict without
    repeated keys in which a symbol is found exactly when it was asked for
    and the frame has bars for it, with those bars as its value; when no
    symbol was asked for twice, the entries come in the order asked. *)
Theorem fetch_data_returns_asked_and_found (symbols : list string)
    (hist : gmap string (list Bar)) (w : World) :
  ∃ data,
    _fetch_data symbols (Frame hist) w = Ok data w ∧
    NoDup data.*1 ∧
    (∀ s, dict_get s data = if decide (s ∈ symbols) then hist !! s else None) ∧
    (NoDup symbols →
     data = omap (λ s, (λ df, (s, df)) <$> hist !! s) symbols).
Proof.
  exists (fetch_loop symbols hist). split; [reflexivity|]. unfold fetch_loop.
  split; [apply fetch_from_nodup; constructor|]. split.
  - intros s. rewrite fetch_from_get. cbn.
    destruct (decide (s ∈ symbols)); [destruct (hist !! s)|]; reflexivity.
  - intros Hnd. apply (fetch_from_ordered hist symbols [] Hnd).
    intros s _. apply not_elem_of_nil.
Qed.

Lemma fetch_loop_elem (symbols : list string) (hist : gmap string (list Bar))
    (s : string) (df : list Bar) :
  (s, df) ∈ fetch_loop symbols hist → hist !! s = Some df.
Proof.
  apply fetch_from_elem. intros s0 df0 H. apply elem_of_nil in H. destruct H.
Qed.

Lemma fetch_data_result (symbols : list string) (r : Response) (w : World) :
  ∃ data,
    _fetch_data symbols r w =
      Ok data {| pf := pf w; stdout := stdout w ++ fetch_diagnostic r |} ∧
    (∀ s df, (s, df) ∈ data → ∃ hist, r = Frame hist ∧ hist !! s = Some df).
Proof.
  destruct r as [msg|ty|hist].
  - exists []. split; [reflexivity|]. intros s df H. apply elem_of_nil in H. destruct H.
  - exists []. split; [reflexivity|]. intros s df H. apply elem_of_nil in H. destruct H.
  - exists (fetch_loop symbols hist). split.
    + cbn. rewrite app_nil_r. destruct w; reflexivity.
    + intros s df Hin. exists hist. split; [reflexivity|].
      exact (fetch_loop_elem symbols hist s df Hin).
Qed.

Lemma fetch_loop_nothing (symbols : list string) (hist : gmap string (list Bar)) :
  (∀ symbol, symbol ∈ symbols → hist !! symbol = None) →
  fetch_loop symbols hist = [].
Proof.
  unfold fetch_loop. generalize (@nil (string * list Bar)).
  induction symbols as [|k symbols IH]; intros acc Hnone; cbn [foldl].
  - reflexivity.
  - rewrite (Hnone k) by left. apply IH. intros s Hs. apply Hnone. right. exact Hs.
Qed.

Lemma fmt_starting_capital : fmt_2f (Qc_of_Z 12000) = "12000.00".
Proof. vm_compute. reflexivity. Qed.

(** X18.  When the provider raises, returns something that is not a
    frame, or returns a frame with no bars for NVDA and AMD, the program
    neither fails nor trades: it prints the fetch diagnostic if there is
    one, then the report of an untouched portfolio -- capital 12000.00
    before and after, "No trades were executed.", empty positions. *)
Theorem main_without_data_reports_untouched_portfolio (ta : Indicators)
    (r : Response) (w : World) :
  brought_nothing ["NVDA"; "AMD"] r →
  main ta r w =
    Ok tt {| pf := Portfolio_init (Qc_of_Z 12000);
             stdout :=
               stdout w ++ fetch_diagnostic r
                 ++ [Txt "--- Starting Backtest ---";
                     Txt ("Initial Capital: $12000.00" +:+ nl);
                     Txt (nl +:+ "--- Backtest Finished ---");
                     Txt "Trade History:";
                     Txt "No trades were executed.";
                     Txt (nl +:+ "Final Portfolio:");
                     Txt "Capital: $12000.00";
                     PositionsLine ∅] |}.
Proof.
  intros Hnone.
  assert (∃ w0, Backtest_init ["NVDA"; "AMD"] (Qc_of_Z 12000) r w =
                  Ok [] w0 ∧
                pf w0 = Portfolio_init (Qc_of_Z 12000) ∧
                stdout w0 = stdout w ++ fetch_diagnostic r) as (w0 & E0 & Hpf0 & Hout0).
  { unfold Backtest_init, mbind, M_bind. destruct r as [msg|ty|hist].
    - cbn. eexists. repeat split.
    - cbn. eexists. repeat split.
    - cbv beta iota. unfold _fetch_data.
      rewrite (fetch_loop_nothing _ hist Hnone). eexists. split; [reflexivity|].
      split; [reflexivity|]. cbn. rewrite app_nil_r. reflexivity. }
  unfold main, mbind, M_bind. rewrite E0. cbn [as_frames fmap list_fmap].
  destruct (run_short_aux ta [] w0) as (w' & Er & Hpf & Hout).
  { intros s rows H. apply elem_of_nil in H. destruct H. }
  rewrite Er. f_equal. destruct w' as [p' o']. cbn in Hpf, Hout. subst p' o'.
  rewrite Hpf0, Hout0. cbn. rewrite fmt_starting_capital.
  rewrite <- !app_assoc. reflexivity.
Qed.

Lemma main_without_data_reports_untouched_portfolio_witness :
  main warmup_indicators (ProviderRaised "timeout") (fresh 0) =
    Ok tt {| pf := Portfolio_init (Qc_of_Z 12000);
             stdout :=
               [] ++ [Txt "Error fetching data with yahooquery: timeout"]
                 ++ [Txt "--- Starting Backtest ---";
                     Txt ("Initial Capital: $12000.00" +:+ nl);
                     Txt (nl +:+ "--- Backtest Finished ---");
                     Txt "Trade History:";
                     Txt "No trades were executed.";
                     Txt (nl +:+ "Final Portfolio:");
                     Txt "Capital: $12000.00";
                     PositionsLine ∅] |}.
Proof.
  apply (main_without_data_reports_untouched_portfolio warmup_indicators
           (ProviderRaised "timeout") (fresh 0)).
  exact I.
Defined.

(** X19.  Whatever the provider and the indicator library return, the
    main block ends -- returning, or raising [ValueError] at a column
    assignment, the only exception it raises -- with a portfolio that
    holds nothing or exactly one share of AMD, and no NVDA. *)
Theorem main_ends_flat_or_with_one_amd (ta : Indicators) (r : Response) (w : World) :
  ends_in (λ w', flat_or_one_amd w' ∧ positions (pf w') !! "NVDA" = None)
    (main ta r w).
Proof.
  unfold main, Backtest_init, mbind, M_bind.
  set (w0 := {| pf := Portfolio_init (Qc_of_Z 12000); stdout := stdout w |}).
  destruct (fetch_data_result ["NVDA"; "AMD"] r w0) as (data & -> & _).
  set (w1 := {| pf := pf w0; stdout := stdout w0 ++ fetch_diagnostic r |}).
  assert (ends_in flat_or_one_amd (execute ta (as_frames data) w1)) as [HI He].
  { apply execute_ends_in; [auto | | left; reflexivity].
    intros symbol rows i w2 _ Hi Hw2.
    destruct (bar_at_holdings ta rows i w2 Hi Hw2) as (w3 & E & H3 & _). eauto. }
  destruct (run_report_aux ta (as_frames data) w1) as (ls & _ & Hrun).
  destruct (execute ta (as_frames data) w1) as [[] w2|e w2]; cbn in HI.
  - destruct Hrun as (w' & -> & Hpf & _).
    assert (flat_or_one_amd w') as H' by (unfold flat_or_one_amd; rewrite Hpf; exact HI).
    split; [|discriminate]. split; [exact H' | apply flat_or_one_amd_no_nvda, H'].
  - rewrite Hrun. split.
    + split; [exact HI | apply flat_or_one_amd_no_nvda, HI].
    + intros e' w' [= <- _]. exact (He e w2 eq_refl).
Qed.
